(** * The Medplum lab demo: a model of its batch workflow

    The repository holds three copies of one Node.js script:

    - [Part000]: the complete four-stage workflow (authenticate, create a
      Patient and a ServiceRequest, create two Observations and a
      DiagnosticReport, read the report and its observations back);
    - [IndexOrder]: the first program of [index.js] (authenticate and
      create the order only);
    - [IndexReport]: the second program of [index.js], whose [createReport]
      submits a five-entry batch.

    The script is sequential [async] code over three collaborators: the
    [fetch] call, [randomUUID] and the console.  It is modelled as a state
    and exception monad over a [World] that records what the program has
    done (requests sent, lines printed, the [accessToken] global) and what
    its environment will answer (the outcome of each [fetch], the value of
    each [randomUUID]). *)

From stdpp Require Import base option list strings pretty.

Set Warnings "-register-all".
Open Scope string_scope.
Open Scope list_scope.

(** ** JavaScript values *)

(** The values the script handles: what [JSON.parse] can produce, plus
    [undefined], which property reads produce.  A number is kept as the text
    [Number.prototype.toString] gives for it: the script never computes with
    a number, it only passes numbers on or prints them.  A string is the
    sequence of its code units.  An object is the list of its own properties
    in insertion order; the first binding of a name is the property's
    value. *)
Inductive value : Type :=
  | VUndefined
  | VNull
  | VBool (b : bool)
  | VNum (repr : string)
  | VStr (s : string)
  | VArr (items : list value)
  | VObj (fields : list (string * value)).

(** What the script can throw: [new Error(message)], the [TypeError] of a
    property read on [undefined] or [null] and of a call of something that
    is no function, and the rejections of the two promises of the transport,
    [fetch(...)] and [response.json()]. *)
Inductive exn : Type :=
  | Error (message : string)
  | TypeError
  | FetchRejected
  | JsonRejected.

Inductive outcome (A : Type) : Type :=
  | Ret (a : A)
  | Throw (e : exn).
Arguments Ret {A} a.
Arguments Throw {A} e.

#[global] Instance outcome_ret : MRet outcome := fun A a => Ret a.
#[global] Instance outcome_bind : MBind outcome := fun A B f o =>
  match o with
  | Ret a => f a
  | Throw e => Throw e
  end.

Fixpoint own_prop (k : string) (fields : list (string * value)) : value :=
  match fields with
  | [] => VUndefined
  | (k', v) :: rest => if String.eqb k k' then v else own_prop k rest
  end.

(** [v.k] for the property names the script reads ([entry], [response],
    [outcome], [issue], [details], [text], [location], [result],
    [reference], [access_token]); none of them is inherited from a
    prototype, so only own properties and [length] answer. *)
Definition member (v : value) (k : string) : outcome value :=
  match v with
  | VUndefined | VNull => Throw TypeError
  | VObj fields => Ret (own_prop k fields)
  | VArr items =>
      Ret (if String.eqb k "length" then VNum (pretty (length items)) else VUndefined)
  | VStr s =>
      Ret (if String.eqb k "length" then VNum (pretty (String.length s)) else VUndefined)
  | VBool _ | VNum _ => Ret VUndefined
  end.

(** [v[i]] for a literal index [i]. *)
Definition index (v : value) (i : nat) : outcome value :=
  match v with
  | VUndefined | VNull => Throw TypeError
  | VArr items => Ret (default VUndefined (items !! i))
  | VObj fields => Ret (own_prop (pretty i) fields)
  | VStr s =>
      Ret (match String.get i s with
           | Some c => VStr (String c EmptyString)
           | None => VUndefined
           end)
  | VBool _ | VNum _ => Ret VUndefined
  end.

(** One step of a property path such as
    [data.entry[0].response.location]. *)
Inductive accessor : Type :=
  | Dot (k : string)
  | At (i : nat).

Definition access (v : value) (a : accessor) : outcome value :=
  match a with
  | Dot k => member v k
  | At i => index v i
  end.

Fixpoint drill (v : value) (path : list accessor) : outcome value :=
  match path with
  | [] => Ret v
  | a :: rest => v' ← access v a; drill v' rest
  end.

(** [f] applied to each element in turn, stopping at the first throw. *)
Fixpoint each {A B} (f : A → outcome B) (l : list A) : outcome (list B) :=
  match l with
  | [] => Ret []
  | x :: rest => y ← f x; ys ← each f rest; Ret (y :: ys)
  end.

(** [v.map(f)]: only an array has a [map] method; a parsed object that has a
    property of that name holds data there, not a function. *)
Definition Array_map (v : value) (f : value → outcome value) : outcome value :=
  match v with
  | VArr items => items' ← each f items; Ret (VArr items')
  | _ => Throw TypeError
  end.

Fixpoint has_own (k : string) (fields : list (string * value)) : bool :=
  match fields with
  | [] => false
  | (k', _) :: rest => String.eqb k k' || has_own k rest
  end.

(** [Array.prototype.join] with the default separator, over the strings
    [convert] gives for the elements; it stops at the first throw. *)
Fixpoint join_with (convert : value → outcome string) (l : list value)
    : outcome string :=
  match l with
  | [] => Ret ""
  | x :: rest =>
      sx ← convert x;
      match rest with
      | [] => Ret sx
      | _ :: _ => srest ← join_with convert rest; Ret (sx +:+ "," +:+ srest)
      end
  end.

(** The string a value becomes when it is concatenated to a string, as in
    ['Bearer ' + accessToken].  An object converts through
    [Object.prototype.toString] unless it has a [toString] property of its
    own: what a parsed body holds there is data, not a function, and the
    conversion throws.  An array joins the strings of its elements, with
    nothing for [undefined] and [null], and throws where an element does. *)
Fixpoint ToString (v : value) : outcome string :=
  match v with
  | VUndefined => Ret "undefined"
  | VNull => Ret "null"
  | VBool true => Ret "true"
  | VBool false => Ret "false"
  | VNum repr => Ret repr
  | VStr s => Ret s
  | VArr items =>
      join_with (λ x, match x with
                      | VUndefined | VNull => Ret ""
                      | _ => ToString x
                      end) items
  | VObj fields =>
      if has_own "toString" fields then Throw TypeError
      else Ret "[object Object]"
  end.

(** ** The transport and the world *)

(** The second argument of [fetch].  A body is either a string the script
    spells out or [JSON.stringify] of a value. *)
Inductive Body : Type :=
  | BodyText (s : string)
  | JSON_stringify (v : value).

Record Request : Type := {
  req_url : string;
  req_method : string;
  req_headers : list (string * string);
  req_body : option Body
}.

(** What the script reads of a response: its [ok] flag and the promise of
    [json()], which rejects ([None]) when the body is not JSON. *)
Record Response : Type := {
  ok : bool;
  json : option value
}.

(** A line of console output: a value, the text
    [JSON.stringify(v, undefined, 2)], or the body stream of a response. *)
Inductive Output : Type :=
  | Log (v : value)
  | LogJson (v : value)
  | LogBodyStream.

Record World : Type := {
  accessToken : value;
  (** the environment: the outcome of the n-th [fetch] ([None]: the promise
      rejects), the result of the n-th [randomUUID()], and the time
      [new Date().toISOString()] reads *)
  network : nat → option Response;
  uuid_source : nat → string;
  clock : string;
  (** the history: requests sent (oldest first), number of identifiers
      drawn, console lines (oldest first) *)
  sent : list Request;
  uuid_drawn : nat;
  console : list Output
}.

(** [let accessToken = null;] and nothing done yet. *)
Definition initial (net : nat → option Response) (uuids : nat → string)
    (now : string) : World :=
  {| accessToken := VNull; network := net; uuid_source := uuids; clock := now;
     sent := []; uuid_drawn := 0; console := [] |}.

(** An [async] function body: it runs on a world and either returns or
    throws, and what it did before a throw stays done. *)
Definition M (A : Type) : Type := World → outcome A * World.

#[global] Instance M_ret : MRet M := fun A a w => (Ret a, w).
#[global] Instance M_bind : MBind M := fun A B f m w =>
  match m w with
  | (Ret a, w') => f a w'
  | (Throw e, w') => (Throw e, w')
  end.

Definition throw {A} (e : exn) : M A := fun w => (Throw e, w).

(** A pure computation that may throw, run inside a function body. *)
Definition lift {A} (o : outcome A) : M A := fun w => (o, w).

Definition console_log (o : Output) : M unit := fun w =>
  (Ret (),
   {| accessToken := accessToken w; network := network w;
      uuid_source := uuid_source w; clock := clock w; sent := sent w;
      uuid_drawn := uuid_drawn w; console := console w ++ [o] |}).

Definition read_accessToken : M value := fun w => (Ret (accessToken w), w).

Definition write_accessToken (v : value) : M unit := fun w =>
  (Ret (),
   {| accessToken := v; network := network w;
      uuid_source := uuid_source w; clock := clock w; sent := sent w;
      uuid_drawn := uuid_drawn w; console := console w |}).

Definition randomUUID : M string := fun w =>
  (Ret (uuid_source w (uuid_drawn w)),
   {| accessToken := accessToken w; network := network w;
      uuid_source := uuid_source w; clock := clock w; sent := sent w;
      uuid_drawn := S (uuid_drawn w); console := console w |}).

Definition Date_toISOString : M string := fun w => (Ret (clock w), w).

(** [await fetch(url, init)]: the request goes out, then the promise settles
    as the environment decides. *)
Definition fetch (r : Request) : M Response := fun w =>
  let w' := {| accessToken := accessToken w; network := network w;
               uuid_source := uuid_source w; clock := clock w;
               sent := sent w ++ [r];
               uuid_drawn := uuid_drawn w; console := console w |} in
  match network w (length (sent w)) with
  | Some resp => (Ret resp, w')
  | None => (Throw FetchRejected, w')
  end.

(** [await response.json()]. *)
Definition response_json (resp : Response) : M value :=
  match json resp with
  | Some data => mret data
  | None => throw JsonRejected
  end.

Notation "m1 ;; m2" := (mbind (M := M) (fun _ : unit => m2) m1)
  (at level 100, m2 at level 200, right associativity, only parsing).

(** ** What all three programs share *)

Definition BASE_URL : string := "https://api.medplum.com/".
Definition MY_CLIENT_ID : string := "MY_CLIENT_ID".
Definition MY_CLIENT_SECRET : string := "MY_CLIENT_SECRET".

Definition token_request : Request :=
  {| req_url := BASE_URL +:+ "oauth2/token";
     req_method := "POST";
     req_headers := [("Content-Type", "application/x-www-form-urlencoded")];
     req_body := Some (BodyText
       ("grant_type=client_credentials&client_id=" +:+ MY_CLIENT_ID
        +:+ "&client_secret=" +:+ MY_CLIENT_SECRET)) |}.

(** [authenticate] is the same text in the three programs. *)
Definition authenticate : M unit :=
  console_log (Log (VStr "Authenticating..."));;
  response ← fetch token_request;
  if negb (ok response) then
    console_log LogBodyStream;;
    throw (Error "Authentication failed.")
  else
    data ← response_json response;
    token ← lift (member data "access_token");
    write_accessToken token;;
    console_log (Log (VStr "Success!")).

(** The headers and the [POST] of a batch to the FHIR endpoint, as each
    batch-submitting function spells them out; [token] is the string the
    access token has become in ['Bearer ' + accessToken]. *)
Definition batch_request (token : string) (bundle : value) : Request :=
  {| req_url := BASE_URL +:+ "fhir/R4/";
     req_method := "POST";
     req_headers := [("Authorization", "Bearer " +:+ token);
                     ("Content-Type", "application/fhir+json")];
     req_body := Some (JSON_stringify bundle) |}.

(** The [GET] of the report in [readResults]; [reportId] is the string the
    identifier has become in [BASE_URL + 'fhir/R4/' + reportId]. *)
Definition report_request (token reportId : string) : Request :=
  {| req_url := BASE_URL +:+ "fhir/R4/" +:+ reportId;
     req_method := "GET";
     req_headers := [("Authorization", "Bearer " +:+ token)];
     req_body := None |}.

Definition bundle_of (entries : list value) : value :=
  VObj [("resourceType", VStr "Bundle"); ("type", VStr "batch");
        ("entry", VArr entries)].

(** The callback of [report.result.map] in [readResults]. *)
Definition read_entry (result : value) : outcome value :=
  url ← member result "reference";
  Ret (VObj [("request", VObj [("method", VStr "GET"); ("url", url)])]).

(** [readResults] is the same text in [Part000] and in [IndexReport].  The
    arguments of a [fetch] are evaluated before the call, left to right: a
    throw in the url, in the [Authorization] header or inside
    [report.result.map(...)] leaves that request unsent. *)
Definition readResults (reportId : value) : M unit :=
  target ← lift (ToString reportId);
  token ← read_accessToken;
  bearer ← lift (ToString token);
  response1 ← fetch (report_request bearer target);
  report ← response_json response1;
  console_log (LogJson report);;
  token ← read_accessToken;
  bearer ← lift (ToString token);
  result ← lift (member report "result");
  entries ← lift (Array_map result read_entry);
  response2 ← fetch (batch_request bearer
    (VObj [("resourceType", VStr "Bundle"); ("type", VStr "batch");
           ("entry", entries)]));
  results ← response_json response2;
  console_log (LogJson results).

(** [createServiceRequest] differs between the three programs only in the
    payload literals of its two entries; [entries] builds them from the
    patient's local identifier and the medical record number. *)
Definition createServiceRequest_of (entries : string → string → list value)
    : M (list value) :=
  uuid ← randomUUID;
  let patientUrn := "urn:uuid:" +:+ uuid in
  exampleMrn ← randomUUID;
  token ← read_accessToken;
  bearer ← lift (ToString token);
  response ← fetch (batch_request bearer
    (bundle_of (entries patientUrn exampleMrn)));
  data ← response_json response;
  console_log (LogJson data);;
  text0 ← lift (drill data [Dot "entry"; At 0; Dot "response"; Dot "outcome";
                            Dot "issue"; At 0; Dot "details"; Dot "text"]);
  console_log (Log text0);;
  location0 ← lift (drill data [Dot "entry"; At 0; Dot "response"; Dot "location"]);
  console_log (Log location0);;
  text1 ← lift (drill data [Dot "entry"; At 1; Dot "response"; Dot "outcome";
                            Dot "issue"; At 0; Dot "details"; Dot "text"]);
  console_log (Log text1);;
  location1 ← lift (drill data [Dot "entry"; At 1; Dot "response"; Dot "location"]);
  console_log (Log location1);;
  location0 ← lift (drill data [Dot "entry"; At 0; Dot "response"; Dot "location"]);
  location1 ← lift (drill data [Dot "entry"; At 1; Dot "response"; Dot "location"]);
  mret [location0; location1].

(** [const [a, b] = ...]: the elements of the returned array, [undefined]
    past its end. *)
Definition element (l : list value) (i : nat) : value :=
  default VUndefined (l !! i).

(** ** The complete workflow *)

Module Part000.

Definition patient_entry (patientUrn exampleMrn : string) : value :=
  VObj [("fullUrl", VStr patientUrn);
        ("request", VObj [("method", VStr "POST");
                          ("url", VStr "Patient");
                          ("ifNoneExist", VStr ("identifier=" +:+ exampleMrn))]);
        ("resource", VObj [
           ("resourceType", VStr "Patient");
           ("name", VArr [VObj [("given", VArr [VStr "Batch"]);
                                ("family", VStr "Test")]]);
           ("birthDate", VStr "2020-01-01");
           ("gender", VStr "male");
           ("identifier", VArr [VObj [("system", VStr "https://example.com/");
                                      ("value", VStr exampleMrn)]])])].

Definition service_request_entry (patientUrn : string) : value :=
  VObj [("request", VObj [("method", VStr "POST");
                          ("url", VStr "ServiceRequest")]);
        ("resource", VObj [
           ("resourceType", VStr "ServiceRequest");
           ("subject", VObj [("reference", VStr patientUrn)]);
           ("code", VObj [("coding", VArr [VObj [
              ("system", VStr "https://kit.com/tests");
              ("code", VStr "KIT_SKU")]])])])].

Definition order_entries (patientUrn exampleMrn : string) : list value :=
  [patient_entry patientUrn exampleMrn; service_request_entry patientUrn].

Definition createServiceRequest : M (list value) :=
  createServiceRequest_of order_entries.

Definition observation_entry (observationUrn : string)
    (patientId serviceRequestId : value) (code display : string) : value :=
  VObj [("fullUrl", VStr observationUrn);
        ("request", VObj [("method", VStr "POST");
                          ("url", VStr "Observation")]);
        ("resource", VObj [
           ("resourceType", VStr "Observation");
           ("basedOn", VArr [VObj [("reference", serviceRequestId)]]);
           ("subject", VObj [("reference", patientId)]);
           ("code", VObj [("coding", VArr [VObj [
              ("system", VStr "https://kit.com/tests");
              ("code", VStr code);
              ("display", VStr display)]])]);
           ("valueQuantity", VObj [
              ("value", VNum "100");
              ("unit", VStr "mg/dL");
              ("system", VStr "http://unitsofmeasure.org");
              ("code", VStr "mg/dL")])])].

Definition diagnostic_report_entry (patientId serviceRequestId : value)
    (observtionUrn1 observtionUrn2 : string) : value :=
  VObj [("request", VObj [("method", VStr "POST");
                          ("url", VStr "DiagnosticReport")]);
        ("resource", VObj [
           ("resourceType", VStr "DiagnosticReport");
           ("basedOn", VArr [VObj [("reference", serviceRequestId)]]);
           ("subject", VObj [("reference", patientId)]);
           ("code", VObj [("coding", VArr [VObj [
              ("system", VStr "https://kit.com/tests");
              ("code", VStr "KIT_SKU")]])]);
           ("result", VArr [VObj [("reference", VStr observtionUrn1)];
                            VObj [("reference", VStr observtionUrn2)]])])].

Definition report_entries (patientId serviceRequestId : value)
    (observtionUrn1 observtionUrn2 : string) : list value :=
  [observation_entry observtionUrn1 patientId serviceRequestId "abc" "ABC";
   observation_entry observtionUrn2 patientId serviceRequestId "xyz" "XYZ";
   diagnostic_report_entry patientId serviceRequestId
     observtionUrn1 observtionUrn2].

Definition createReport (patientId serviceRequestId : value) : M (list value) :=
  uuid1 ← randomUUID;
  let observtionUrn1 := "urn:uuid:" +:+ uuid1 in
  uuid2 ← randomUUID;
  let observtionUrn2 := "urn:uuid:" +:+ uuid2 in
  token ← read_accessToken;
  bearer ← lift (ToString token);
  response ← fetch (batch_request bearer
    (bundle_of (report_entries patientId serviceRequestId
                  observtionUrn1 observtionUrn2)));
  data ← response_json response;
  location ← lift (drill data [Dot "entry"; At 2; Dot "response"; Dot "location"]);
  mret [location].

Definition main : M unit :=
  authenticate;;
  ids ← createServiceRequest;
  let patientId := element ids 0 in
  let serviceRequestId := element ids 1 in
  ids' ← createReport patientId serviceRequestId;
  let diagnosticReportId := element ids' 0 in
  readResults diagnosticReportId.

End Part000.

(** ** The first program of index.js: the order only *)

(** The order entries of both programs of [index.js]; the two differ in the
    host of two [system] URIs. *)
Definition index_patient_entry (host patientUrn exampleMrn : string) : value :=
  VObj [("fullUrl", VStr patientUrn);
        ("request", VObj [("method", VStr "POST");
                          ("url", VStr "Patient");
                          ("ifNoneExist", VStr ("identifier=" +:+ exampleMrn))]);
        ("resource", VObj [
           ("resourceType", VStr "Patient");
           ("name", VArr [VObj [("given", VArr [VStr "Batch"]);
                                ("family", VStr "Test")]]);
           ("birthDate", VStr "2020-01-01");
           ("gender", VStr "male");
           ("identifier", VArr [VObj [
              ("system", VStr ("https://" +:+ host +:+ "/deidentified"));
              ("value", VStr exampleMrn)]])])].

Definition index_service_request_entry (host patientUrn : string) : value :=
  VObj [("request", VObj [("method", VStr "POST");
                          ("url", VStr "ServiceRequest")]);
        ("resource", VObj [
           ("resourceType", VStr "ServiceRequest");
           ("subject", VObj [("reference", VStr patientUrn)]);
           ("code", VObj [("coding", VArr [VObj [
              ("system", VStr "https://example.com/availableskus");
              ("code", VStr "DEVICE_SKU")]])]);
           ("orderDetail", VArr [VObj [
              ("text", VStr "CUSTOMER_ORDERED");
              ("coding", VArr [VObj [
                 ("system", VStr ("https://" +:+ host +:+ "/logisticssummary"));
                 ("code", VStr "PRE_DISPATCH")]])]])])].

Module IndexOrder.

Definition order_entries (patientUrn exampleMrn : string) : list value :=
  [index_patient_entry "example.com" patientUrn exampleMrn;
   index_service_request_entry "example.com" patientUrn].

Definition createServiceRequest : M (list value) :=
  createServiceRequest_of order_entries.

Definition main : M unit :=
  authenticate;;
  ids ← createServiceRequest;
  mret ().

End IndexOrder.

(** ** The second program of index.js: a five-entry report batch *)

Module IndexReport.

Definition order_entries (patientUrn exampleMrn : string) : list value :=
  [index_patient_entry "gohumanfirst.com" patientUrn exampleMrn;
   index_service_request_entry "gohumanfirst.com" patientUrn].

Definition createServiceRequest : M (list value) :=
  createServiceRequest_of order_entries.

Definition lab_entry (labUrn labClia : string) : value :=
  VObj [("fullUrl", VStr labUrn);
        ("request", VObj [("method", VStr "POST");
                          ("url", VStr "Organizaiton");
                          ("ifNoneExist", VStr ("identifier=" +:+ labClia))]);
        ("resource", VObj [
           ("resourceType", VStr "Organization");
           ("identifier", VArr [VObj [
              ("system", VStr "urn:oid:2.16.840.1.113883.4.7");
              ("value", VStr labClia)]]);
           ("name", VStr "Example Lab");
           ("telecom", VArr [VObj [("system", VStr "phone");
                                   ("use", VStr "work");
                                   ("value", VStr "14158864975")]]);
           ("address", VArr [VObj [
              ("use", VStr "work");
              ("type", VStr "both");
              ("line", VArr [VStr "953 Indiana St"]);
              ("city", VStr "San Francisco");
              ("state", VStr "CA");
              ("postalCode", VStr "94107")]])])].

Definition practitioner_entry (practitionerUrn practitionerNpi : string) : value :=
  VObj [("fullUrl", VStr practitionerUrn);
        ("request", VObj [("method", VStr "POST");
                          ("url", VStr "Practitioner");
                          ("ifNoneExist", VStr ("identifier=" +:+ practitionerNpi))]);
        ("resource", VObj [
           ("resourceType", VStr "Practitioner");
           ("identifier", VArr [VObj [
              ("type", VObj [("coding", VArr [VObj [
                 ("system", VStr "http://terminology.hl7.org/CodeSystem/v2-0203");
                 ("code", VStr "NPI")]])]);
              ("system", VStr "http://hl7.org/fhir/sid/us-npi");
              ("value", VStr practitionerNpi)]]);
           ("name", VArr [VObj [("use", VStr "official");
                                ("prefix", VArr [VStr "Dr."]);
                                ("given", VArr [VStr "Example"]);
                                ("family", VStr "Practitioner")]]);
           ("telecom", VArr [
              VObj [("system", VStr "email"); ("use", VStr "work");
                    ("value", VStr "practitioner@example.com")];
              VObj [("system", VStr "phone"); ("use", VStr "work");
                    ("value", VStr "555-555-5555")];
              VObj [("system", VStr "fax"); ("use", VStr "work");
                    ("value", VStr "555-555-5555")]]);
           ("address", VArr [VObj [
              ("use", VStr "work");
              ("type", VStr "both");
              ("line", VArr [VStr "123 Happy Lane"]);
              ("city", VStr "Springfield");
              ("state", VStr "OR");
              ("postalCode", VStr "90000")]])])].

Definition specimen_entry (specimenUrn : string)
    (patientId serviceRequestId : value) (now : string) : value :=
  VObj [("fullUrl", VStr specimenUrn);
        ("request", VObj [("method", VStr "POST");
                          ("url", VStr "Specimen")]);
        ("resource", VObj [
           ("resourceType", VStr "Specimen");
           ("status", VStr "available");
           ("request", VArr [VObj [("reference", serviceRequestId)]]);
           ("subject", VObj [("reference", patientId)]);
           ("collection", VObj [("collectedDateTime", VStr now)]);
           ("type", VObj [("coding", VArr [VObj [
              ("system", VStr "http://snomed.info/sct");
              ("code", VStr "122554006");
              ("display", VStr "Capillary blood specimen")]])])])].

Definition quantity (n : string) : value :=
  VObj [("value", VNum n); ("unit", VStr "ng/mL");
        ("system", VStr "http://unitsofmeasure.org")].

Definition observation_entry (observtionUrn specimenUrn : string)
    (patientId serviceRequestId : value) : value :=
  VObj [("fullUrl", VStr observtionUrn);
        ("request", VObj [("method", VStr "POST");
                          ("url", VStr "Observation")]);
        ("resource", VObj [
           ("resourceType", VStr "Observation");
           ("status", VStr "final");
           ("basedOn", VArr [VObj [("reference", serviceRequestId)]]);
           ("subject", VObj [("reference", patientId)]);
           ("specimen", VObj [("reference", VStr specimenUrn)]);
           ("code", VObj [
              ("coding", VArr [VObj [("system", VStr "https://kit.com");
                                     ("code", VStr "TESTOSTERONE")]]);
              ("text", VStr "TESTOSTERONE")]);
           ("category", VArr [VObj [("coding", VArr [VObj [
              ("system", VStr "https://kit.com/observationCategory");
              ("code", VStr "Reproductive")]])]]);
           ("valueQuantity", quantity "10");
           ("interpretation", VArr [VObj [("coding", VArr [VObj [
              ("system", VStr "http://terminology.hl7.org/CodeSystem/v3-ObservationInterpretation");
              ("code", VStr "H");
              ("display", VStr "High")]])]]);
           ("referenceRange", VArr [VObj [("low", quantity "2.49");
                                          ("high", quantity "8.36")]])])].

Definition diagnostic_report_entry (patientId serviceRequestId : value)
    (specimenUrn practitionerUrn observtionUrn : string) : value :=
  VObj [("request", VObj [("method", VStr "POST");
                          ("url", VStr "DiagnosticReport")]);
        ("resource", VObj [
           ("resourceType", VStr "DiagnosticReport");
           ("identifier", VArr [
              VObj [("system", VStr "https://example.com/orderNumber");
                    ("value", VStr "30000000")];
              VObj [("system", VStr "https://example.com/barcodeId");
                    ("value", VStr "1000000")]]);
           ("basedOn", VArr [VObj [("reference", serviceRequestId)]]);
           ("subject", VObj [("reference", patientId)]);
           ("specimen", VArr [VObj [("reference", VStr specimenUrn)]]);
           ("code", VObj [("coding", VArr [VObj [
              ("system", VStr "https://kit.com/kitType");
              ("code", VStr "t_health");
              ("display", VStr "t_health")]])]);
           ("resultsInterpreter", VArr [VObj [("reference", VStr practitionerUrn)]]);
           ("result", VArr [VObj [("reference", VStr observtionUrn)]])])].

Definition report_entries (patientId serviceRequestId : value)
    (labUrn labClia practitionerUrn practitionerNpi specimenUrn observtionUrn
       now : string) : list value :=
  [lab_entry labUrn labClia;
   practitioner_entry practitionerUrn practitionerNpi;
   specimen_entry specimenUrn patientId serviceRequestId now;
   observation_entry observtionUrn specimenUrn patientId serviceRequestId;
   diagnostic_report_entry patientId serviceRequestId
     specimenUrn practitionerUrn observtionUrn].

Definition createReport (patientId serviceRequestId : value) : M (list value) :=
  let labClia := "123456789" in
  uuid1 ← randomUUID;
  let labUrn := "urn:uuid:" +:+ uuid1 in
  let practitionerNpi := "999999999" in
  uuid2 ← randomUUID;
  let practitionerUrn := "urn:uuid:" +:+ uuid2 in
  uuid3 ← randomUUID;
  let specimenUrn := "urn:uuid:" +:+ uuid3 in
  uuid4 ← randomUUID;
  let observtionUrn := "urn:uuid:" +:+ uuid4 in
  token ← read_accessToken;
  bearer ← lift (ToString token);
  now ← Date_toISOString;
  response ← fetch (batch_request bearer
    (bundle_of (report_entries patientId serviceRequestId
                  labUrn labClia practitionerUrn practitionerNpi
                  specimenUrn observtionUrn now)));
  data ← response_json response;
  location ← lift (drill data [Dot "entry"; At 4; Dot "response"; Dot "location"]);
  mret [location].

Definition main : M unit :=
  authenticate;;
  ids ← createServiceRequest;
  let patientId := element ids 0 in
  let serviceRequestId := element ids 1 in
  ids' ← createReport patientId serviceRequestId;
  let diagnosticReportId := element ids' 0 in
  readResults diagnosticReportId.

End IndexReport.

(** ** Sample runs *)

(** A server that answers every stage of [Part000.main] as the comments of
    the script expect. *)
Definition sample_uuids (n : nat) : string :=
  "00000000-0000-4000-8000-00000000000" +:+ pretty n.

Definition created (location : string) : value :=
  VObj [("response", VObj [
     ("status", VStr "201");
     ("location", VStr location);
     ("outcome", VObj [("issue", VArr [VObj [
        ("details", VObj [("text", VStr "Created")])]])])])].

Definition batch_response (entries : list value) : Response :=
  {| ok := true;
     json := Some (VObj [("resourceType", VStr "Bundle");
                         ("type", VStr "batch-response");
                         ("entry", VArr entries)]) |}.

Definition sample_report : value :=
  VObj [("resourceType", VStr "DiagnosticReport");
        ("id", VStr "Z");
        ("result", VArr [VObj [("reference", VStr "Observation/A")];
                         VObj [("reference", VStr "Observation/B")]])].

Definition sample_network (n : nat) : option Response :=
  match n with
  | 0 => Some {| ok := true;
                 json := Some (VObj [("token_type", VStr "Bearer");
                                     ("access_token", VStr "secret")]) |}
  | 1 => Some (batch_response [created "Patient/X"; created "ServiceRequest/Y"])
  | 2 => Some (batch_response [created "Observation/A"; created "Observation/B";
                               created "DiagnosticReport/Z"])
  | 3 => Some {| ok := true; json := Some sample_report |}
  | 4 => Some (batch_response [
           VObj [("resource", VObj [("resourceType", VStr "Observation");
                                    ("id", VStr "A")])];
           VObj [("resource", VObj [("resourceType", VStr "Observation");
                                    ("id", VStr "B")])]])
  | _ => None
  end.

Definition sample_world : World :=
  initial sample_network sample_uuids "2022-01-01T00:00:00.000Z".

(** The same server when the token endpoint refuses the credentials. *)
Definition refused_network (n : nat) : option Response :=
  match n with
  | 0 => Some {| ok := false;
                 json := Some (VObj [("error", VStr "invalid_client")]) |}
  | _ => sample_network n
  end.

Definition refused_world : World :=
  initial refused_network sample_uuids "2022-01-01T00:00:00.000Z".

(** A server that answers the order batch of two entries with three. *)
Definition padded_network (n : nat) : option Response :=
  match n with
  | 0 => Some (batch_response [created "Patient/X"; created "ServiceRequest/Y";
                               created "Patient/W"])
  | _ => None
  end.

Definition padded_world : World :=
  initial padded_network sample_uuids "2022-01-01T00:00:00.000Z".

(** A server that answers the order batch of two entries with one. *)
Definition short_network (n : nat) : option Response :=
  match n with
  | 0 => Some (batch_response [created "Patient/X"])
  | _ => None
  end.

Definition short_world : World :=
  initial short_network sample_uuids "2022-01-01T00:00:00.000Z".

(** The sample server for a stage run on its own: [skip] round trips of the
    workflow are already behind. *)
Definition sample_world_after (skip : nat) : World :=
  initial (λ n, sample_network (skip + n)) sample_uuids
    "2022-01-01T00:00:00.000Z".

(** A network that is down. *)
Definition offline_world : World :=
  initial (λ _, None) sample_uuids "2022-01-01T00:00:00.000Z".

(** ** Vocabulary of the statements *)

(** The [entry] array of a bundle, of a request or of a response. *)
Definition entries_of (bundle : value) : option (list value) :=
  match member bundle "entry" with
  | Ret (VArr entries) => Some entries
  | _ => None
  end.

Definition entry_method (e : value) : outcome value :=
  drill e [Dot "request"; Dot "method"].

Definition entry_url (e : value) : outcome value :=
  drill e [Dot "request"; Dot "url"].

Definition resource_type (e : value) : outcome value :=
  drill e [Dot "resource"; Dot "resourceType"].

(** [data.entry[i].response.location] *)
Definition location_at (data : value) (i : nat) : outcome value :=
  drill data [Dot "entry"; At i; Dot "response"; Dot "location"].

(** [data.entry[i].response.outcome.issue[0].details.text] *)
Definition detail_text_at (data : value) (i : nat) : outcome value :=
  drill data [Dot "entry"; At i; Dot "response"; Dot "outcome";
              Dot "issue"; At 0; Dot "details"; Dot "text"].

Definition get_entry (url : value) : value :=
  VObj [("request", VObj [("method", VStr "GET"); ("url", url)])].

(** The [n]-th round trip, [fetch] and then [json()], as the environment
    settles it. *)
Definition round_trip (w : World) (n : nat) : outcome value :=
  match network w n with
  | None => Throw FetchRejected
  | Some resp =>
      match json resp with
      | None => Throw JsonRejected
      | Some data => Ret data
      end
  end.

(** How the [n]-th round trip fails, if it does. *)
Definition transport_failure (w : World) (n : nat) : option exn :=
  match round_trip w n with
  | Throw e => Some e
  | Ret _ => None
  end.

(** The body the [n]-th round trip delivers. *)
Definition delivered (w : World) (n : nat) : option value :=
  match round_trip w n with
  | Ret data => Some data
  | Throw _ => None
  end.

(** The requests a function sends when run on [w], and the [entry] arrays
    of those that carry a bundle. *)
Definition requests_of {A} (stage : M A) (w : World) : list Request :=
  drop (length (sent w)) (sent (stage w).2).

Definition batch_of (req : Request) : option (list value) :=
  match req_body req with
  | Some (JSON_stringify bundle) => entries_of bundle
  | _ => None
  end.

Definition batches_of {A} (stage : M A) (w : World) : list (list value) :=
  omap batch_of (requests_of stage w).

(** The response carries as many entries as the request. *)
Definition shape_matches (req : Request) (data : value) : Prop :=
  ∃ bundle es rs,
    req_body req = Some (JSON_stringify bundle) ∧
    entries_of bundle = Some es ∧ entries_of data = Some rs ∧
    length rs = length es.

(** A batch-submitting function that returns only after a response of the
    request's length. *)
Definition checks_shape {A} (stage : M A) : Prop :=
  ∀ w a w', stage w = (Ret a, w') →
    ∃ req data, sent w' = sent w ++ [req] ∧
      delivered w (length (sent w)) = Some data ∧ shape_matches req data.

(** What the functions do instead.  They send at most one request, a batch
    of [n] entries, and send it whenever the token converts to a string.
    They return only if the body holds, at each index of [reads] under
    [entry], an element with a response to read from, so that an [entry]
    array has at least [n] elements; and they throw a [TypeError] when the
    array is shorter. *)
Definition needs_full_response {A} (stage : M A) (n : nat)
    (reads : list nat) : Prop :=
  ∀ w,
    ((length (requests_of stage w) ≤ 1)%nat ∧
     Forall (λ es, length es = n) (batches_of stage w)) ∧
    (∀ token, ToString (accessToken w) = Ret token →
       ∃ es, batches_of stage w = [es] ∧ length es = n) ∧
    (∀ a, (stage w).1 = Ret a →
       ∃ data, delivered w (length (sent w)) = Some data ∧
         (∀ i, i ∈ reads →
            ∃ e response,
              drill data [Dot "entry"; At i] = Ret e ∧
              member e "response" = Ret response ∧
              response ≠ VUndefined ∧ response ≠ VNull) ∧
         ∀ rs, entries_of data = Some rs → (n ≤ length rs)%nat) ∧
    (∀ data rs, delivered w (length (sent w)) = Some data →
       entries_of data = Some rs → (length rs < n)%nat →
       (stage w).1 = Throw TypeError).

(** What [createServiceRequest] returns once [data] has arrived. *)
Definition order_result (data : value) : outcome (list value) :=
  _ ← detail_text_at data 0;
  _ ← location_at data 0;
  _ ← detail_text_at data 1;
  _ ← location_at data 1;
  location0 ← location_at data 0;
  location1 ← location_at data 1;
  Ret [location0; location1].

(** What [createReport] returns once [data] has arrived, when it reads the
    identifier of the report at index [i]. *)
Definition report_result (i : nat) (data : value) : outcome (list value) :=
  location ← location_at data i;
  Ret [location].

(** The [entry] value of the read-back batch, [report.result.map(...)]. *)
Definition readback_entries (report : value) : outcome value :=
  result ← member report "result";
  Array_map result read_entry.

(** A function that returns identifiers reads each of them from the
    response entry at the index where the request it has sent holds the
    create of that kind: [reads] lists, for each returned identifier, that
    index and the resource type. *)
Definition correlates (stage : M (list value)) (n : nat)
    (reads : list (nat * string)) : Prop :=
  ∀ w ids w', stage w = (Ret ids, w') →
    ∃ req es data,
      sent w' = sent w ++ [req] ∧
      batch_of req = Some es ∧
      length es = n ∧
      delivered w (length (sent w)) = Some data ∧
      length ids = length reads ∧
      ∀ j i kind, reads !! j = Some (i, kind) →
        (∃ e, es !! i = Some e ∧ resource_type e = Ret (VStr kind)) ∧
        (∃ loc, location_at data i = Ret loc ∧ ids !! j = Some loc).

(** A round-trip failure of the batch leaves the function without a result
    and the console untouched; where the request has gone out, what the
    function throws is the rejection of that round trip. *)
Definition fails_whole {A} (stage : M A) : Prop :=
  ∀ w e, transport_failure w (length (sent w)) = Some e →
    (∃ e', (stage w).1 = Throw e') ∧
    console (stage w).2 = console w ∧
    (requests_of stage w ≠ [] → (stage w).1 = Throw e).

(** A function that sends a request whenever the token converts to a
    string. *)
Definition sends_under_token {A} (stage : M A) : Prop :=
  ∀ w token, ToString (accessToken w) = Ret token → requests_of stage w ≠ [].

Definition url_is_resource_type (e : value) : bool :=
  match entry_url e, resource_type e with
  | Ret (VStr url), Ret (VStr type) => String.eqb url type
  | _, _ => false
  end.

Definition all_post (entries : list value) : Prop :=
  Forall (λ e, entry_method e = Ret (VStr "POST")) entries.

(** A read-back batch over the report the round trip of [w] delivers: as
    long as [report.result], each entry a [GET] of the reference at its
    index. *)
Definition reads_report_references (w : World) (es : list value) : Prop :=
  ∃ report items,
    delivered w (length (sent w)) = Some report ∧
    member report "result" = Ret (VArr items) ∧
    length es = length items ∧
    ∀ i e, es !! i = Some e →
      entry_method e = Ret (VStr "GET") ∧
      ∃ r, items !! i = Some r ∧ entry_url e = member r "reference".

(** ** Vocabulary of the further properties *)

(** Every value held under a [reference] key inside [v], in document
    order; what is held there is not searched further. *)
Fixpoint references_in (v : value) : list value :=
  match v with
  | VArr items =>
      (fix through (l : list value) : list value :=
         match l with
         | [] => []
         | x :: rest => references_in x ++ through rest
         end) items
  | VObj fields =>
      (fix through (l : list (string * value)) : list value :=
         match l with
         | [] => []
         | (k, x) :: rest =>
             (if String.eqb k "reference" then [x] else references_in x)
             ++ through rest
         end) fields
  | _ => []
  end.

(** Within a batch every reference of an entry is one of the identifiers
    handed in from outside ([known]) or the [fullUrl] of an earlier entry. *)
Definition references_point_back (known es : list value) : Prop :=
  ∀ i e ref, es !! i = Some e → ref ∈ references_in e →
    ref ∈ known ∨
    ∃ j e', (j < i)%nat ∧ es !! j = Some e' ∧ member e' "fullUrl" = Ret ref.

(** The value of a request header. *)
Definition header (r : Request) (name : string) : option string :=
  snd <$> find (λ h, String.eqb name h.1) (req_headers r).

(** The local identifier made of the [n]-th draw of [randomUUID]. *)
Definition urn (w : World) (n : nat) : string :=
  "urn:uuid:" +:+ uuid_source w n.

(** The order batch: the patient under the local identifier of the first
    draw, the order referring to it, and a conditional create keyed on the
    record number the patient carries. *)
Definition linked_order (w : World) (es : list value) : Prop :=
  let patientUrn := VStr (urn w (uuid_drawn w)) in
  let mrn := uuid_source w (S (uuid_drawn w)) in
  ∃ patient order,
    es = [patient; order] ∧
    member patient "fullUrl" = Ret patientUrn ∧
    drill order [Dot "resource"; Dot "subject"; Dot "reference"]
      = Ret patientUrn ∧
    drill patient [Dot "request"; Dot "ifNoneExist"]
      = Ret (VStr ("identifier=" +:+ mrn)) ∧
    drill patient [Dot "resource"; Dot "identifier"; At 0; Dot "value"]
      = Ret (VStr mrn) ∧
    references_point_back [] [patient; order].

(** Every batch the function sends is such an order batch, and it sends
    one whenever the token converts to a string. *)
Definition order_is_linked (stage : M (list value)) (w : World) : Prop :=
  Forall (linked_order w) (batches_of stage w) ∧
  ∀ token, ToString (accessToken w) = Ret token →
    ∃ es, batches_of stage w = [es].

(** A function that sends every request under the token it finds and
    leaves the token as it was. *)
Definition bears_token {A} (stage : M A) : Prop :=
  ∀ w, accessToken (stage w).2 = accessToken w ∧
    ∀ r, r ∈ requests_of stage w →
      ∃ token, ToString (accessToken w) = Ret token ∧
        header r "Authorization" = Some ("Bearer " +:+ token).

(** A function that only adds to the requests sent. *)
Definition appends {A} (stage : M A) : Prop :=
  ∀ w, ∃ new, sent (stage w).2 = sent w ++ new.

(** The methods of the requests a function sends stay within [methods], in
    order, and a function that returns has sent them all. *)
Definition sends_in_order {A} (stage : M A) (methods : list string) : Prop :=
  ∀ w, req_method <$> requests_of stage w `prefix_of` methods ∧
    ∀ a, (stage w).1 = Ret a → req_method <$> requests_of stage w = methods.

(** The local identifiers a batch allocates: the [fullUrl] strings of its
    entries. *)
Definition full_urls (es : list value) : list string :=
  omap (λ e, match member e "fullUrl" with
             | Ret (VStr s) => Some s
             | _ => None
             end) es.

Definition local_ids {A} (stage : M A) (w : World) : list string :=
  concat (full_urls <$> batches_of stage w).

(** A function whose local identifiers are the draws at [offsets] from the
    first draw it makes, in order; it makes [d] draws when it returns. *)
Definition draws {A} (stage : M A) (d : nat) (offsets : list nat) : Prop :=
  ∀ w, uuid_source (stage w).2 = uuid_source w ∧
    local_ids stage w
      `prefix_of` ((λ o, urn w (o + uuid_drawn w)) <$> offsets) ∧
    ∀ a, (stage w).1 = Ret a →
      uuid_drawn (stage w).2 = d + uuid_drawn w ∧
      local_ids stage w = (λ o, urn w (o + uuid_drawn w)) <$> offsets.

(** The requests that follow the token request carry the token that
    [authenticate] has stored in [w1]. *)
Definition later_requests_bear (main : M unit) (w w1 : World) : Prop :=
  ∃ later, requests_of main w = token_request :: later ∧
    ∀ r, r ∈ later →
      ∃ token, ToString (accessToken w1) = Ret token ∧
        header r "Authorization" = Some ("Bearer " +:+ token).

(** A conditional create is keyed on the first identifier of its own
    payload. *)
Definition conditional_on_own_identifier (e : value) : Prop :=
  ∀ predicate,
    drill e [Dot "request"; Dot "ifNoneExist"] = Ret (VStr predicate) →
    ∃ v, drill e [Dot "resource"; Dot "identifier"; At 0; Dot "value"]
           = Ret (VStr v) ∧
      predicate = "identifier=" +:+ v.

(** A function that, finding a token that does not convert to a string,
    throws a [TypeError] before it sends or prints anything. *)
Definition stops_before_sending {A} (stage : M A) : Prop :=
  ∀ w e, ToString (accessToken w) = Throw e →
    (stage w).1 = Throw TypeError ∧ requests_of stage w = [] ∧
    console (stage w).2 = console w.

(** The outline the batch-submitting functions share: convert the token,
    send one batch of the entries [entries] builds, and compute the result
    from the body by [result]; a failed conversion throws before anything
    is sent or printed, a failed round trip before anything is printed. *)
Definition submits {A} (stage : M A) (entries : World → list value)
    (result : value → outcome A) : Prop :=
  ∀ w,
    accessToken (stage w).2 = accessToken w ∧
    match ToString (accessToken w) with
    | Throw e =>
        (stage w).1 = Throw e ∧ sent (stage w).2 = sent w ∧
        console (stage w).2 = console w
    | Ret token =>
        sent (stage w).2 =
          sent w ++ [batch_request token (bundle_of (entries w))] ∧
        match round_trip w (length (sent w)) with
        | Throw e => (stage w).1 = Throw e ∧ console (stage w).2 = console w
        | Ret data => (stage w).1 = result data
        end
    end.

(** ** Further sample servers *)

(** The body of an error answer: an outcome, no [entry] and no [result]. *)
Definition operation_outcome : value :=
  VObj [("resourceType", VStr "OperationOutcome");
        ("issue", VArr [VObj [("severity", VStr "error");
                              ("code", VStr "invalid")]])].

Definition error_world : World :=
  initial (λ _, Some {| ok := false; json := Some operation_outcome |})
    sample_uuids "2022-01-01T00:00:00.000Z".

(** A batch answer whose third entry failed: a status and an outcome, no
    [location]. *)
Definition rejected : value :=
  VObj [("response", VObj [("status", VStr "400");
                           ("outcome", operation_outcome)])].

Definition rejected_report_world : World :=
  initial (λ _, Some (batch_response [created "Observation/A";
                                      created "Observation/B"; rejected]))
    sample_uuids "2022-01-01T00:00:00.000Z".

(** A report that lists no result. *)
Definition empty_report_world : World :=
  initial (λ _, Some {| ok := true;
                        json := Some (VObj [("resourceType", VStr "DiagnosticReport");
                                            ("result", VArr [])]) |})
    sample_uuids "2022-01-01T00:00:00.000Z".

(** A token endpoint that answers without a token. *)
Definition tokenless_world : World :=
  initial (λ _, Some {| ok := true;
                        json := Some (VObj [("token_type", VStr "Bearer")]) |})
    sample_uuids "2022-01-01T00:00:00.000Z".

(** A token endpoint whose token is an object with a [toString] property of
    its own. *)
Definition unprintable : value := VObj [("toString", VNum "1")].

Definition unprintable_network (n : nat) : option Response :=
  match n with
  | 0 => Some {| ok := true;
                 json := Some (VObj [("access_token", unprintable)]) |}
  | S n' => sample_network (S n')
  end.

Definition unprintable_world : World :=
  initial unprintable_network sample_uuids "2022-01-01T00:00:00.000Z".
(** ** Property reads *)

Lemma member_throw v k e : member v k = Throw e → e = TypeError.
Proof. destruct v; simpl; congruence. Qed.

Lemma index_throw v i e : index v i = Throw e → e = TypeError.
Proof. destruct v; simpl; congruence. Qed.

Lemma drill_throw path : ∀ v e, drill v path = Throw e → e = TypeError.
Proof.
  induction path as [|a rest IH]; intros v e; simpl; [congruence|].
  destruct (access v a) as [v'|e'] eqn:Ha; simpl.
  - apply IH.
  - intros [= <-]. destruct a; [eapply member_throw|eapply index_throw]; eauto.
Qed.

Lemma drill_entry_present data i k rest v rs :
  drill data (Dot "entry" :: At i :: Dot k :: rest) = Ret v →
  entries_of data = Some rs → (i < length rs)%nat.
Proof.
  unfold entries_of. simpl.
  destruct (member data "entry") as [[| | | | |items|]|]; simpl; try congruence.
  intros Hd [= ->]. apply lookup_lt_is_Some.
  destruct (rs !! i); [eauto|]. simpl in Hd. congruence.
Qed.

Lemma each_length {A B} (f : A → outcome B) l :
  ∀ l', each f l = Ret l' → length l' = length l.
Proof.
  induction l as [|x l IH]; simpl; intros l'; [by intros [= <-]|].
  destruct (f x); simpl; [|congruence].
  destruct (each f l) as [ys|]; simpl; [|congruence].
  intros [= <-]. simpl. f_equal. by apply IH.
Qed.

Lemma each_lookup {A B} (f : A → outcome B) l : ∀ l' i x,
  each f l = Ret l' → l !! i = Some x → ∃ y, f x = Ret y ∧ l' !! i = Some y.
Proof.
  induction l as [|x0 l IH]; simpl; intros l' i x; [done|].
  destruct (f x0) as [y0|] eqn:Hf; simpl; [|congruence].
  destruct (each f l) as [ys|]; simpl; [|congruence].
  intros [= <-]. destruct i as [|i]; simpl.
  - intros [= <-]. eauto.
  - intros Hx. eapply IH; eauto.
Qed.

Lemma each_lookup_inv {A B} (f : A → outcome B) l : ∀ l' i y,
  each f l = Ret l' → l' !! i = Some y → ∃ x, l !! i = Some x ∧ f x = Ret y.
Proof.
  induction l as [|x0 l IH]; cbn; intros l' i y.
  - by intros [= <-].
  - destruct (f x0) as [y0|] eqn:Hf; cbn; [|done].
    destruct (each f l) as [ys|]; cbn; [|done].
    intros [= <-]. destruct i as [|i]; cbn.
    + intros [= <-]. eauto.
    + intros Hy. eapply IH; eauto.
Qed.

Lemma each_read_entry items : ∀ urls,
  each (λ r, member r "reference") items = Ret urls →
  each read_entry items = Ret (get_entry <$> urls).
Proof.
  unfold read_entry.
  induction items as [|r items IH]; simpl; intros urls; [by intros [= <-]|].
  destruct (member r "reference") as [url|]; simpl; [|congruence].
  destruct (each (λ r, member r "reference") items) as [us|]; simpl; [|congruence].
  intros [= <-]. by rewrite (IH us).
Qed.

Lemma location_at_inv data i location :
  location_at data i = Ret location →
  ∃ e response,
    drill data [Dot "entry"; At i] = Ret e ∧
    member e "response" = Ret response ∧
    response ≠ VUndefined ∧ response ≠ VNull ∧
    member response "location" = Ret location.
Proof.
  unfold location_at. cbn.
  destruct (member data "entry") as [entry|]; cbn; [|done].
  destruct (index entry i) as [e|]; cbn; [|done].
  destruct (member e "response") as [response|] eqn:Hr; cbn; [|done].
  destruct (member response "location") as [l|] eqn:Hl; cbn; [|done].
  intros [= <-]. exists e, response. split_and!; try done.
  all: intros Heq; by rewrite Heq in Hl.
Qed.

Lemma join_with_throw convert l e :
  Forall (λ x, ∀ e', convert x = Throw e' → e' = TypeError) l →
  join_with convert l = Throw e → e = TypeError.
Proof.
  induction 1 as [|x rest Hx _ IH]; cbn; [done|].
  destruct (convert x) as [sx|e0] eqn:Hcx; cbn.
  - destruct rest as [|y rest']; [done|].
    destruct (join_with convert (y :: rest')) as [srest|e1]; cbn; [done|].
    intros [= <-]. by apply IH.
  - intros [= <-]. by apply Hx.
Qed.

Lemma ToString_throw : ∀ v e, ToString v = Throw e → e = TypeError.
Proof.
  fix IH 1. intros [| |[]| | |items|fields] e; cbn; try done.
  - apply join_with_throw.
    induction items as [|x rest IHrest]; constructor; [|exact IHrest].
    intros e' Hx. apply (IH x e'). by destruct x.
  - destruct (has_own "toString" fields); [by intros [= <-]|done].
Qed.

(** ** Round trips *)

#[local] Arguments drill : simpl never.
#[local] Arguments ToString : simpl never.

Lemma delivered_Ret w n data :
  delivered w n = Some data ↔ round_trip w n = Ret data.
Proof. unfold delivered. destruct (round_trip w n); naive_solver. Qed.

Lemma transport_failure_Throw w n e :
  transport_failure w n = Some e ↔ round_trip w n = Throw e.
Proof. unfold transport_failure. destruct (round_trip w n); naive_solver. Qed.

(** Unfolds one function body over the world. *)
Ltac run :=
  unfold mbind, M_bind, mret, M_ret, fetch, response_json, console_log, throw,
    lift, read_accessToken, write_accessToken, randomUUID, Date_toISOString;
  cbn.

Lemma createServiceRequest_of_run entries w :
  let stage := createServiceRequest_of entries in
  let patientUrn := "urn:uuid:" +:+ uuid_source w (uuid_drawn w) in
  let exampleMrn := uuid_source w (S (uuid_drawn w)) in
  accessToken (stage w).2 = accessToken w ∧
  uuid_drawn (stage w).2 = 2 + uuid_drawn w ∧
  match ToString (accessToken w) with
  | Throw e =>
      (stage w).1 = Throw e ∧ sent (stage w).2 = sent w ∧
      console (stage w).2 = console w
  | Ret token =>
      sent (stage w).2 =
        sent w ++ [batch_request token
                     (bundle_of (entries patientUrn exampleMrn))] ∧
      match round_trip w (length (sent w)) with
      | Throw e => (stage w).1 = Throw e ∧ console (stage w).2 = console w
      | Ret data => (stage w).1 = order_result data
      end
  end.
Proof.
  unfold createServiceRequest_of, round_trip, order_result, location_at,
    detail_text_at. run.
  destruct (ToString (accessToken w)) as [token|]; cbn; [|done].
  destruct (network w (length (sent w))) as [resp|]; cbn; [|done].
  destruct (json resp) as [data|]; cbn; [|done].
  repeat match goal with
  | |- context [drill data ?p] => destruct (drill data p); cbn
  end; done.
Qed.

Lemma authenticate_run w :
  sent (authenticate w).2 = sent w ++ [token_request] ∧
  uuid_drawn (authenticate w).2 = uuid_drawn w.
Proof.
  unfold authenticate. run.
  destruct (network w (length (sent w))) as [resp|]; cbn; [|done].
  destruct (ok resp); cbn; [|done].
  destruct (json resp) as [data|]; cbn; [|done].
  by destruct (member data "access_token").
Qed.

Lemma Part000_createReport_run patientId serviceRequestId w :
  let stage := Part000.createReport patientId serviceRequestId in
  let observtionUrn1 := "urn:uuid:" +:+ uuid_source w (uuid_drawn w) in
  let observtionUrn2 := "urn:uuid:" +:+ uuid_source w (S (uuid_drawn w)) in
  accessToken (stage w).2 = accessToken w ∧
  uuid_drawn (stage w).2 = 2 + uuid_drawn w ∧
  console (stage w).2 = console w ∧
  match ToString (accessToken w) with
  | Throw e => (stage w).1 = Throw e ∧ sent (stage w).2 = sent w
  | Ret token =>
      sent (stage w).2 =
        sent w ++ [batch_request token
                     (bundle_of (Part000.report_entries patientId
                                   serviceRequestId
                                   observtionUrn1 observtionUrn2))] ∧
      match round_trip w (length (sent w)) with
      | Throw e => (stage w).1 = Throw e
      | Ret data => (stage w).1 = report_result 2 data
      end
  end.
Proof.
  unfold Part000.createReport, round_trip, report_result, location_at. run.
  destruct (ToString (accessToken w)) as [token|]; cbn; [|done].
  destruct (network w (length (sent w))) as [resp|]; cbn; [|done].
  destruct (json resp) as [data|]; cbn; [|done].
  by destruct (drill data _).
Qed.

Lemma IndexReport_createReport_run patientId serviceRequestId w :
  let stage := IndexReport.createReport patientId serviceRequestId in
  let urn n := "urn:uuid:" +:+ uuid_source w (n + uuid_drawn w) in
  accessToken (stage w).2 = accessToken w ∧
  uuid_drawn (stage w).2 = 4 + uuid_drawn w ∧
  console (stage w).2 = console w ∧
  match ToString (accessToken w) with
  | Throw e => (stage w).1 = Throw e ∧ sent (stage w).2 = sent w
  | Ret token =>
      sent (stage w).2 =
        sent w ++ [batch_request token
                     (bundle_of (IndexReport.report_entries patientId
                                   serviceRequestId (urn 0) "123456789"
                                   (urn 1) "999999999" (urn 2) (urn 3)
                                   (clock w)))] ∧
      match round_trip w (length (sent w)) with
      | Throw e => (stage w).1 = Throw e
      | Ret data => (stage w).1 = report_result 4 data
      end
  end.
Proof.
  unfold IndexReport.createReport, round_trip, report_result, location_at. run.
  destruct (ToString (accessToken w)) as [token|]; cbn; [|done].
  destruct (network w (length (sent w))) as [resp|]; cbn; [|done].
  destruct (json resp) as [data|]; cbn; [|done].
  by destruct (drill data _).
Qed.

Lemma readResults_run reportId w :
  let stage := readResults reportId in
  let n := length (sent w) in
  accessToken (stage w).2 = accessToken w ∧
  uuid_drawn (stage w).2 = uuid_drawn w ∧
  match ToString reportId, ToString (accessToken w) with
  | Throw e, _ | Ret _, Throw e =>
      (stage w).1 = Throw e ∧ console (stage w).2 = console w ∧
      sent (stage w).2 = sent w
  | Ret target, Ret token =>
  match round_trip w n with
  | Throw e =>
      (stage w).1 = Throw e ∧ console (stage w).2 = console w ∧
      sent (stage w).2 = sent w ++ [report_request token target]
  | Ret report =>
      match readback_entries report with
      | Throw e =>
          (stage w).1 = Throw e ∧
          console (stage w).2 = console w ++ [LogJson report] ∧
          sent (stage w).2 = sent w ++ [report_request token target]
      | Ret entries =>
          sent (stage w).2 =
            sent w ++ [report_request token target;
                       batch_request token
                         (VObj [("resourceType", VStr "Bundle");
                                ("type", VStr "batch"); ("entry", entries)])] ∧
          match round_trip w (S n) with
          | Throw e =>
              (stage w).1 = Throw e ∧
              console (stage w).2 = console w ++ [LogJson report]
          | Ret results =>
              (stage w).1 = Ret () ∧
              console (stage w).2 = console w ++ [LogJson report; LogJson results]
          end
      end
  end
  end.
Proof.
  unfold readResults, round_trip, readback_entries. run.
  destruct (ToString reportId) as [target|]; cbn; [|done].
  destruct (ToString (accessToken w)) as [token|] eqn:Htoken; cbn; [|done].
  destruct (network w (length (sent w))) as [resp|]; cbn; [|done].
  destruct (json resp) as [report|]; cbn; [|done].
  rewrite Htoken. cbn.
  destruct (member report "result") as [result|]; cbn; [|done].
  destruct (Array_map result read_entry) as [entries|]; cbn; [|done].
  rewrite length_app, Nat.add_1_r, <- !app_assoc. cbn.
  destruct (network w (S (length (sent w)))) as [resp2|]; cbn; [|done].
  destruct (json resp2); cbn; by rewrite <- ?app_assoc.
Qed.

(** ** The outline of a batch-submitting function *)

Lemma createServiceRequest_of_submits entries :
  submits (createServiceRequest_of entries)
    (λ w, entries (urn w (uuid_drawn w)) (uuid_source w (S (uuid_drawn w))))
    order_result.
Proof.
  intros w. destruct (createServiceRequest_of_run entries w) as (Ht & _ & H).
  split; [done|].
  destruct (ToString (accessToken w)); [|done]. destruct H as [Hs H].
  split; [done|]. by destruct (round_trip w (length (sent w))).
Qed.

Lemma Part000_createReport_submits patientId serviceRequestId :
  submits (Part000.createReport patientId serviceRequestId)
    (λ w, Part000.report_entries patientId serviceRequestId
            (urn w (uuid_drawn w)) (urn w (S (uuid_drawn w))))
    (report_result 2).
Proof.
  intros w.
  destruct (Part000_createReport_run patientId serviceRequestId w)
    as (Ht & _ & Hc & H).
  split; [done|].
  destruct (ToString (accessToken w)); [|by destruct H]. destruct H as [Hs H].
  split; [done|]. by destruct (round_trip w (length (sent w))).
Qed.

Lemma IndexReport_createReport_submits patientId serviceRequestId :
  submits (IndexReport.createReport patientId serviceRequestId)
    (λ w, IndexReport.report_entries patientId serviceRequestId
            (urn w (uuid_drawn w)) "123456789" (urn w (1 + uuid_drawn w))
            "999999999" (urn w (2 + uuid_drawn w)) (urn w (3 + uuid_drawn w))
            (clock w))
    (report_result 4).
Proof.
  intros w.
  destruct (IndexReport_createReport_run patientId serviceRequestId w)
    as (Ht & _ & Hc & H).
  split; [done|].
  destruct (ToString (accessToken w)); [|by destruct H]. destruct H as [Hs H].
  split; [done|]. by destruct (round_trip w (length (sent w))).
Qed.

Lemma requests_of_sent {A} (stage : M A) w new :
  sent (stage w).2 = sent w ++ new → requests_of stage w = new.
Proof. unfold requests_of. intros ->. by rewrite drop_app_length. Qed.

Lemma submits_requests {A} (stage : M A) entries result w :
  submits stage entries result →
  requests_of stage w =
    match ToString (accessToken w) with
    | Ret token => [batch_request token (bundle_of (entries w))]
    | Throw _ => []
    end.
Proof.
  intros H. destruct (H w) as [_ Hw]. apply requests_of_sent.
  destruct (ToString (accessToken w)).
  - by destruct Hw.
  - destruct Hw as (_ & -> & _). by rewrite app_nil_r.
Qed.

Lemma submits_batches {A} (stage : M A) entries result w :
  submits stage entries result →
  batches_of stage w =
    match ToString (accessToken w) with
    | Ret _ => [entries w]
    | Throw _ => []
    end.
Proof.
  intros H. unfold batches_of. rewrite (submits_requests _ _ _ _ H).
  by destruct (ToString (accessToken w)).
Qed.

Lemma submits_outcome {A} (stage : M A) entries result w :
  submits stage entries result →
  (stage w).1 =
    (ToString (accessToken w) ≫= λ _,
     round_trip w (length (sent w)) ≫= result).
Proof.
  intros H. destruct (H w) as [_ Hw].
  destruct (ToString (accessToken w)); cbn; [|by destruct Hw].
  destruct Hw as [_ Hw].
  destruct (round_trip w (length (sent w))); cbn; [done|by destruct Hw].
Qed.

Lemma submits_console {A} (stage : M A) entries result w :
  submits stage entries result →
  (∀ data, round_trip w (length (sent w)) ≠ Ret data) →
  console (stage w).2 = console w.
Proof.
  intros H Hfail. destruct (H w) as [_ Hw].
  destruct (ToString (accessToken w)); [|by destruct Hw as (_ & _ & ?)].
  destruct Hw as [_ Hw].
  destruct (round_trip w (length (sent w))) as [data|];
    [by destruct (Hfail data)|by destruct Hw].
Qed.

(** ** Results read from a response *)

Lemma order_result_throw data e : order_result data = Throw e → e = TypeError.
Proof.
  unfold order_result, location_at, detail_text_at.
  repeat match goal with
  | |- context [drill data ?p] =>
      let H := fresh in destruct (drill data p) eqn:H; cbn;
      [|intros [= <-]; by eapply drill_throw]
  end. done.
Qed.

Lemma order_result_inv data ids :
  order_result data = Ret ids →
  ∃ location0 location1, location_at data 0 = Ret location0 ∧
    location_at data 1 = Ret location1 ∧ ids = [location0; location1].
Proof.
  unfold order_result.
  destruct (detail_text_at data 0); cbn; [|done].
  destruct (location_at data 0); cbn; [|done].
  destruct (detail_text_at data 1); cbn; [|done].
  destruct (location_at data 1); cbn; [|done].
  intros [= <-]. eauto.
Qed.

Lemma report_result_throw i data e : report_result i data = Throw e → e = TypeError.
Proof.
  unfold report_result, location_at.
  destruct (drill data _) eqn:H; cbn; [done|].
  intros [= <-]. by eapply drill_throw.
Qed.

Lemma report_result_inv i data ids :
  report_result i data = Ret ids →
  ∃ location, location_at data i = Ret location ∧ ids = [location].
Proof.
  unfold report_result. destruct (location_at data i); cbn; [|done].
  intros [= <-]. eauto.
Qed.

Lemma needs_full_response_intro {A} (stage : M A) (n : nat) reads
    entries (result : value → outcome A) :
  submits stage entries result →
  (∀ w, length (entries w) = n) →
  (∃ i, i ∈ reads ∧ S i = n) →
  (∀ data a i, result data = Ret a → i ∈ reads →
     ∃ location, location_at data i = Ret location) →
  (∀ data e, result data = Throw e → e = TypeError) →
  needs_full_response stage n reads.
Proof.
  intros Hsub Hlen (top & Htop & Hn) Hreads Hthrow w.
  pose proof (submits_requests _ _ _ w Hsub) as Hreq.
  pose proof (submits_batches _ _ _ w Hsub) as Hbat.
  pose proof (submits_outcome _ _ _ w Hsub) as Hout.
  split_and!.
  - rewrite Hreq. destruct (ToString (accessToken w)); cbn; lia.
  - rewrite Hbat. destruct (ToString (accessToken w)); by repeat constructor.
  - intros token Htoken. rewrite Hbat, Htoken. eauto.
  - intros a Ha. rewrite Ha in Hout. unfold delivered.
    destruct (ToString (accessToken w)); cbn in Hout; [|done].
    destruct (round_trip w (length (sent w))) as [data|]; cbn in Hout; [|done].
    exists data. split_and!; [done| |].
    + intros i Hi. destruct (Hreads data a i) as [loc Hloc]; [done..|].
      destruct (location_at_inv _ _ _ Hloc) as (e & r & ? & ? & ? & ? & _).
      eauto 10.
    + intros rs Hrs. destruct (Hreads data a top) as [loc Hloc]; [done..|].
      rewrite <- Hn. by eapply drill_entry_present.
  - intros data rs Hdata%delivered_Ret Hrs Hshort. rewrite Hout, Hdata.
    destruct (ToString (accessToken w)) as [token|e] eqn:Htoken; cbn;
      [|by rewrite (ToString_throw _ _ Htoken)].
    destruct (result data) as [a|e] eqn:Hres.
    + destruct (Hreads data a top) as [loc Hloc]; [done..|].
      assert (top < length rs)%nat by by eapply drill_entry_present. lia.
    + by rewrite (Hthrow _ _ Hres).
Qed.

Lemma order_result_reads_entries data ids i :
  order_result data = Ret ids → i ∈ [0; 1] →
  ∃ location, location_at data i = Ret location.
Proof.
  intros (l0 & l1 & H0 & H1 & _)%order_result_inv.
  rewrite !elem_of_cons. intros [->|[->|[]%elem_of_nil]]; eauto.
Qed.

Lemma report_result_reads_entry n data ids i :
  report_result n data = Ret ids → i ∈ [n] →
  ∃ location, location_at data i = Ret location.
Proof.
  intros (l & Hl & _)%report_result_inv ->%list_elem_of_singleton. eauto.
Qed.

Lemma createServiceRequest_of_needs_full_response entries :
  (∀ patientUrn exampleMrn, length (entries patientUrn exampleMrn) = 2) →
  needs_full_response (createServiceRequest_of entries) 2 [0; 1].
Proof.
  intros Hlen.
  eapply needs_full_response_intro;
    [apply createServiceRequest_of_submits|intros; apply Hlen| | |].
  - exists 1. split; [|done]. apply list_elem_of_further, list_elem_of_here.
  - intros data a i. apply order_result_reads_entries.
  - apply order_result_throw.
Qed.

(** C1, as amended.  The batch-submitting functions make no comparison of
    entry counts.  Each sends at most one request, a batch of [n] entries
    ([n] is 2 for [createServiceRequest], 3 for the [createReport] of
    [Part000], 5 for the [createReport] of [IndexReport]), and sends it
    whenever the token converts to a string.  It returns only if the body
    holds, at every index it reads under [entry] (0 and 1; 2; 4), an
    element whose response is neither [undefined] nor [null], so that an
    [entry] array has at least [n] elements; and it throws a [TypeError]
    when the [entry] array is shorter than [n]. *)
Theorem batch_functions_need_full_response (patientId serviceRequestId : value) :
  needs_full_response Part000.createServiceRequest 2 [0; 1] ∧
  needs_full_response (Part000.createReport patientId serviceRequestId) 3 [2] ∧
  needs_full_response IndexOrder.createServiceRequest 2 [0; 1] ∧
  needs_full_response IndexReport.createServiceRequest 2 [0; 1] ∧
  needs_full_response (IndexReport.createReport patientId serviceRequestId)
    5 [4].
Proof.
  split_and!.
  - by apply createServiceRequest_of_needs_full_response.
  - eapply needs_full_response_intro;
      [apply Part000_createReport_submits|done| | |apply report_result_throw].
    + exists 2. split; [apply list_elem_of_here|done].
    + intros data a i. apply report_result_reads_entry.
  - by apply createServiceRequest_of_needs_full_response.
  - by apply createServiceRequest_of_needs_full_response.
  - eapply needs_full_response_intro;
      [apply IndexReport_createReport_submits|done| |
      |apply report_result_throw].
    + exists 4. split; [apply list_elem_of_here|done].
    + intros data a i. apply report_result_reads_entry.
Qed.

(** Scenario D: one entry for the two-entry order batch is a [TypeError];
    the sample response has its two entries, each with a response. *)
Lemma batch_functions_need_full_response_witness :
  (Part000.createServiceRequest short_world).1 = Throw TypeError ∧
  ∃ data, delivered (sample_world_after 1) 0 = Some data ∧
    (∀ i, i ∈ [0; 1] →
       ∃ e response,
         drill data [Dot "entry"; At i] = Ret e ∧
         member e "response" = Ret response ∧
         response ≠ VUndefined ∧ response ≠ VNull) ∧
    ∀ rs, entries_of data = Some rs → (2 ≤ length rs)%nat.
Proof.
  destruct (batch_functions_need_full_response VUndefined VUndefined)
    as (Horder & _).
  split.
  - destruct (Horder short_world) as (_ & _ & _ & Hshort).
    apply (Hshort _ [created "Patient/X"] eq_refl eq_refl). simpl. lia.
  - destruct (Horder (sample_world_after 1)) as (_ & _ & Hreturned & _).
    exact (Hreturned [VStr "Patient/X"; VStr "ServiceRequest/Y"] eq_refl).
Defined.

(** C1, as stated, fails: answered with three entries for its two-entry
    batch, [createServiceRequest] returns the first two locations. *)
Lemma createServiceRequest_accepts_padded_response :
  (Part000.createServiceRequest padded_world).1
    = Ret [VStr "Patient/X"; VStr "ServiceRequest/Y"] ∧
  ¬ checks_shape Part000.createServiceRequest.
Proof.
  assert ((Part000.createServiceRequest padded_world).1
            = Ret [VStr "Patient/X"; VStr "ServiceRequest/Y"]) as Hret
    by (vm_compute; reflexivity).
  split; [exact Hret|]. intros Hchecks.
  destruct (Hchecks padded_world [VStr "Patient/X"; VStr "ServiceRequest/Y"]
              (Part000.createServiceRequest padded_world).2)
    as (req & data & Hsent & Hdata & bundle & es & rs & Hbody & Hes & Hrs & Hlen).
  { rewrite <- Hret. apply surjective_pairing. }
  vm_compute in Hsent. injection Hsent as <-.
  vm_compute in Hbody. injection Hbody as <-.
  vm_compute in Hdata. injection Hdata as <-.
  vm_compute in Hes. injection Hes as <-.
  vm_compute in Hrs. injection Hrs as <-.
  discriminate Hlen.
Qed.

(** ** Positional correlation *)

Lemma batch_of_batch_request token es :
  batch_of (batch_request token (bundle_of es)) = Some es.
Proof. reflexivity. Qed.

Lemma submits_returns {A} (stage : M A) entries result w a w' :
  submits stage entries result →
  stage w = (Ret a, w') →
  ∃ token data,
    ToString (accessToken w) = Ret token ∧
    sent w' = sent w ++ [batch_request token (bundle_of (entries w))] ∧
    round_trip w (length (sent w)) = Ret data ∧
    result data = Ret a.
Proof.
  intros Hsub Hstage. destruct (Hsub w) as [_ H]. rewrite Hstage in H.
  cbn in H.
  destruct (ToString (accessToken w)) as [token|]; [|by destruct H].
  destruct H as [Hsent H].
  destruct (round_trip w (length (sent w))) as [data|]; [|by destruct H].
  eauto 10.
Qed.

Lemma correlates_intro (stage : M (list value)) (n : nat)
    (reads : list (nat * string)) (entries : World → list value)
    (result : value → outcome (list value)) :
  submits stage entries result →
  (∀ w, length (entries w) = n) →
  (∀ w j i kind, reads !! j = Some (i, kind) →
     ∃ e, entries w !! i = Some e ∧ resource_type e = Ret (VStr kind)) →
  (∀ data ids, result data = Ret ids →
     length ids = length reads ∧
     ∀ j i kind, reads !! j = Some (i, kind) →
       ∃ loc, location_at data i = Ret loc ∧ ids !! j = Some loc) →
  correlates stage n reads.
Proof.
  intros Hsub Hlen Hkinds Hreads w ids w' Hstage.
  destruct (submits_returns _ _ _ _ _ _ Hsub Hstage)
    as (token & data & _ & Hsent & Hdata & Hres).
  destruct (Hreads _ _ Hres) as [Hids Hlocs].
  exists (batch_request token (bundle_of (entries w))), (entries w), data.
  split_and!; [done|done|done|by apply delivered_Ret|done|].
  intros j i kind Hj. split; [by eapply Hkinds|by eapply Hlocs].
Qed.

Lemma order_result_reads data ids :
  order_result data = Ret ids →
  length ids = 2 ∧
  ∀ j i (kind : string), [(0, "Patient"); (1, "ServiceRequest")] !! j = Some (i, kind) →
    ∃ loc, location_at data i = Ret loc ∧ ids !! j = Some loc.
Proof.
  intros (l0 & l1 & H0 & H1 & ->)%order_result_inv. split; [done|].
  intros [|[|j]] i kind [= <- <-]; eauto.
Qed.

Lemma report_result_reads n data ids :
  report_result n data = Ret ids →
  length ids = 1 ∧
  ∀ j i (kind : string), [(n, "DiagnosticReport")] !! j = Some (i, kind) →
    ∃ loc, location_at data i = Ret loc ∧ ids !! j = Some loc.
Proof.
  intros (loc & Hloc & ->)%report_result_inv. split; [done|].
  intros [|j] i kind [= <- <-]; eauto.
Qed.

Lemma createServiceRequest_of_correlates entries :
  (∀ patientUrn exampleMrn,
     resource_type <$> entries patientUrn exampleMrn =
       [Ret (VStr "Patient"); Ret (VStr "ServiceRequest")]) →
  correlates (createServiceRequest_of entries) 2
    [(0, "Patient"); (1, "ServiceRequest")].
Proof.
  intros Hkinds.
  eapply correlates_intro;
    [apply createServiceRequest_of_submits| | |apply order_result_reads].
  - intros w. by rewrite <- (length_fmap resource_type), Hkinds.
  - intros w j i kind Hj. cbn beta.
    assert ((resource_type <$> entries (urn w (uuid_drawn w))
               (uuid_source w (S (uuid_drawn w)))) !! i = Some (Ret (VStr kind)))
      as Hi.
    { rewrite Hkinds. destruct j as [|[|j]]; cbn in Hj; by simplify_eq. }
    rewrite list_lookup_fmap in Hi.
    destruct (entries _ _ !! i) as [e|]; [|done].
    injection Hi as Hi. eauto.
Qed.

(** C3.  Every identifier a function returns is read from the response
    entry at the index where the batch of the request it has sent holds the
    create of that resource: the Patient at 0 and the ServiceRequest at 1
    in [createServiceRequest], the DiagnosticReport at 2 in the three-entry
    batch of [Part000.createReport] and at 4 in the five-entry batch of
    [IndexReport.createReport]. *)
Theorem identifiers_read_at_request_index (patientId serviceRequestId : value) :
  correlates Part000.createServiceRequest 2
    [(0, "Patient"); (1, "ServiceRequest")] ∧
  correlates (Part000.createReport patientId serviceRequestId) 3
    [(2, "DiagnosticReport")] ∧
  correlates IndexOrder.createServiceRequest 2
    [(0, "Patient"); (1, "ServiceRequest")] ∧
  correlates IndexReport.createServiceRequest 2
    [(0, "Patient"); (1, "ServiceRequest")] ∧
  correlates (IndexReport.createReport patientId serviceRequestId) 5
    [(4, "DiagnosticReport")].
Proof.
  split_and!.
  - by apply createServiceRequest_of_correlates.
  - eapply correlates_intro;
      [apply Part000_createReport_submits
      |done
      |intros w [|j] i kind Hj; cbn in Hj; simplify_eq; eauto
      |apply report_result_reads].
  - by apply createServiceRequest_of_correlates.
  - by apply createServiceRequest_of_correlates.
  - eapply correlates_intro;
      [apply IndexReport_createReport_submits
      |done
      |intros w [|j] i kind Hj; cbn in Hj; simplify_eq; eauto
      |apply report_result_reads].
Qed.

(** In the sample run the report is created by entry 2 of the batch sent
    and its identifier is the location of response entry 2. *)
Lemma identifiers_read_at_request_index_witness :
  ∃ req es data,
    sent (Part000.createReport (VStr "Patient/X") (VStr "ServiceRequest/Y")
            (sample_world_after 2)).2 = [req] ∧
    batch_of req = Some es ∧
    length es = 3 ∧
    delivered (sample_world_after 2) 0 = Some data ∧
    (∃ e, es !! 2 = Some e ∧ resource_type e = Ret (VStr "DiagnosticReport")) ∧
    location_at data 2 = Ret (VStr "DiagnosticReport/Z").
Proof.
  destruct (identifiers_read_at_request_index
              (VStr "Patient/X") (VStr "ServiceRequest/Y")) as (_ & Hreport & _).
  assert ((Part000.createReport (VStr "Patient/X") (VStr "ServiceRequest/Y")
             (sample_world_after 2)).1 = Ret [VStr "DiagnosticReport/Z"])
    as Hret by (vm_compute; reflexivity).
  destruct (Hreport (sample_world_after 2) [VStr "DiagnosticReport/Z"]
              (Part000.createReport (VStr "Patient/X")
                 (VStr "ServiceRequest/Y") (sample_world_after 2)).2)
    as (req & es & data & Hsent & Hbatch & Hlen & Hdata & _ & Hreads).
  { rewrite <- Hret. apply surjective_pairing. }
  destruct (Hreads 0 2 "DiagnosticReport" eq_refl)
    as (Hkind & loc & Hloc & [= <-]).
  exists req, es, data.
  exact (conj Hsent (conj Hbatch (conj Hlen (conj Hdata (conj Hkind Hloc))))).
Defined.

(** ** Transport failures *)

Lemma fails_whole_intro {A} (stage : M A) entries result :
  submits stage entries result → fails_whole stage.
Proof.
  intros Hsub w e He%transport_failure_Throw.
  pose proof (submits_requests _ _ _ w Hsub) as Hreq.
  pose proof (submits_outcome _ _ _ w Hsub) as Hout.
  rewrite He in Hout. split_and!.
  - rewrite Hout. destruct (ToString (accessToken w)); cbn; eauto.
  - eapply submits_console; [done|]. by rewrite He.
  - rewrite Hout, Hreq. by destruct (ToString (accessToken w)).
Qed.

Lemma sends_under_token_intro {A} (stage : M A) entries result :
  submits stage entries result → sends_under_token stage.
Proof.
  intros Hsub w token Htoken.
  by rewrite (submits_requests _ _ _ w Hsub), Htoken.
Qed.

(** C5.  When the round trip of a batch fails, by a rejection of [fetch] or
    of [response.json()], the function that submitted it returns nothing
    and has printed nothing, and, its request having gone out, throws that
    rejection; the request goes out whenever the token (and, in
    [readResults], the report identifier) converts to a string.  In
    [readResults] this holds for the read of the report and, once the
    report has arrived, for the read-back batch. *)
Theorem transport_failure_fails_the_batch
    (patientId serviceRequestId reportId : value) :
  (fails_whole Part000.createServiceRequest ∧
   fails_whole (Part000.createReport patientId serviceRequestId) ∧
   fails_whole IndexOrder.createServiceRequest ∧
   fails_whole IndexReport.createServiceRequest ∧
   fails_whole (IndexReport.createReport patientId serviceRequestId) ∧
   fails_whole (readResults reportId)) ∧
  (sends_under_token Part000.createServiceRequest ∧
   sends_under_token (Part000.createReport patientId serviceRequestId) ∧
   sends_under_token IndexOrder.createServiceRequest ∧
   sends_under_token IndexReport.createServiceRequest ∧
   sends_under_token (IndexReport.createReport patientId serviceRequestId) ∧
   ∀ w target token,
     ToString reportId = Ret target →
     ToString (accessToken w) = Ret token →
     requests_of (readResults reportId) w ≠ []) ∧
  (∀ w target token report entries e,
     ToString reportId = Ret target →
     ToString (accessToken w) = Ret token →
     delivered w (length (sent w)) = Some report →
     readback_entries report = Ret entries →
     transport_failure w (S (length (sent w))) = Some e →
     (readResults reportId w).1 = Throw e ∧
     length (requests_of (readResults reportId) w) = 2 ∧
     console (readResults reportId w).2 = console w ++ [LogJson report]).
Proof.
  split_and!.
  - eapply fails_whole_intro, createServiceRequest_of_submits.
  - eapply fails_whole_intro, Part000_createReport_submits.
  - eapply fails_whole_intro, createServiceRequest_of_submits.
  - eapply fails_whole_intro, createServiceRequest_of_submits.
  - eapply fails_whole_intro, IndexReport_createReport_submits.
  - intros w e He%transport_failure_Throw.
    destruct (readResults_run reportId w) as (_ & _ & H).
    destruct (ToString reportId) as [target|];
      [destruct (ToString (accessToken w)) as [token|]|].
    + rewrite He in H. destruct H as (-> & ? & ?). eauto.
    + destruct H as (-> & ? & Hs). split_and!; [eauto|done|].
      intros []. apply requests_of_sent. by rewrite Hs, app_nil_r.
    + destruct H as (-> & ? & Hs). split_and!; [eauto|done|].
      intros []. apply requests_of_sent. by rewrite Hs, app_nil_r.
  - eapply sends_under_token_intro, createServiceRequest_of_submits.
  - eapply sends_under_token_intro, Part000_createReport_submits.
  - eapply sends_under_token_intro, createServiceRequest_of_submits.
  - eapply sends_under_token_intro, createServiceRequest_of_submits.
  - eapply sends_under_token_intro, IndexReport_createReport_submits.
  - intros w target token Htarget Htoken.
    destruct (readResults_run reportId w) as (_ & _ & H).
    rewrite Htarget, Htoken in H.
    destruct (round_trip w (length (sent w))) as [report|].
    + destruct (readback_entries report).
      * destruct H as [Hs _]. rewrite (requests_of_sent _ _ _ Hs). done.
      * destruct H as (_ & _ & Hs). rewrite (requests_of_sent _ _ _ Hs). done.
    + destruct H as (_ & _ & Hs). rewrite (requests_of_sent _ _ _ Hs). done.
  - intros w target token report entries e Htarget Htoken
      Hreport%delivered_Ret Hentries He%transport_failure_Throw.
    destruct (readResults_run reportId w) as (_ & _ & H).
    rewrite Htarget, Htoken, Hreport, Hentries in H. destruct H as [Hs H].
    rewrite He in H. destruct H as [Hthrow Hconsole].
    split_and!; [done| |done]. by rewrite (requests_of_sent _ _ _ Hs).
Qed.

(** With the network down the order goes out and fails with the rejection
    of [fetch]. *)
Lemma transport_failure_fails_the_batch_witness :
  Part000.createServiceRequest offline_world
    = (Throw FetchRejected, (Part000.createServiceRequest offline_world).2) ∧
  console (Part000.createServiceRequest offline_world).2 = [].
Proof.
  destruct (transport_failure_fails_the_batch VUndefined VUndefined VUndefined)
    as ((Horder & _) & (Hsends & _) & _).
  destruct (Horder offline_world FetchRejected eq_refl)
    as (_ & Hconsole & Hthrow).
  split; [|exact Hconsole].
  rewrite <- Hthrow; [apply surjective_pairing|].
  exact (Hsends offline_world "null" eq_refl).
Defined.

(** ** The requests of a run *)

Lemma appends_requests {A} (stage : M A) w :
  appends stage → sent (stage w).2 = sent w ++ requests_of stage w.
Proof.
  intros H. destruct (H w) as [new Hnew].
  by rewrite (requests_of_sent _ _ _ Hnew).
Qed.

Lemma appends_bind {A B} (m : M A) (k : A → M B) :
  appends m → (∀ a, appends (k a)) → appends (m ≫= k).
Proof.
  intros Hm Hk w. destruct (Hm w) as [new Hnew]. unfold mbind, M_bind.
  destruct (m w) as [[a|e] w1]; cbn in Hnew; [|eauto].
  destruct (Hk a w1) as [new' Hnew']. exists (new ++ new').
  by rewrite Hnew', Hnew, app_assoc.
Qed.

Lemma requests_of_bind {A B} (m : M A) (k : A → M B) w :
  appends m → (∀ a, appends (k a)) →
  requests_of (m ≫= k) w =
    requests_of m w ++ match m w with
                       | (Ret a, w1) => requests_of (k a) w1
                       | (Throw _, _) => []
                       end.
Proof.
  intros Hm Hk. apply requests_of_sent. unfold mbind, M_bind.
  pose proof (appends_requests m w Hm) as Hs.
  destruct (m w) as [[a|e] w1] eqn:Hmw; cbn in Hs.
  - by rewrite (appends_requests (k a) w1 (Hk a)), Hs, app_assoc.
  - cbn. by rewrite app_nil_r.
Qed.

Lemma appends_ret {A} (a : A) : appends (mret a).
Proof. intros w. exists []. by rewrite app_nil_r. Qed.

Lemma authenticate_appends : appends authenticate.
Proof. intros w. destruct (authenticate_run w) as [Hs _]. eauto. Qed.

Lemma submits_appends {A} (stage : M A) entries result :
  submits stage entries result → appends stage.
Proof.
  intros Hsub w. destruct (Hsub w) as [_ H].
  destruct (ToString (accessToken w)).
  - destruct H as [-> _]. eauto.
  - destruct H as (_ & -> & _). exists []. by rewrite app_nil_r.
Qed.

Lemma createServiceRequest_of_appends entries :
  appends (createServiceRequest_of entries).
Proof. eapply submits_appends, createServiceRequest_of_submits. Qed.

Lemma Part000_createReport_appends patientId serviceRequestId :
  appends (Part000.createReport patientId serviceRequestId).
Proof. eapply submits_appends, Part000_createReport_submits. Qed.

Lemma IndexReport_createReport_appends patientId serviceRequestId :
  appends (IndexReport.createReport patientId serviceRequestId).
Proof. eapply submits_appends, IndexReport_createReport_submits. Qed.

Lemma token_request_not_batch token bundle :
  batch_request token bundle ≠ token_request.
Proof. intros H. apply (f_equal req_url) in H. discriminate H. Qed.

Lemma token_request_not_report token reportId :
  report_request token reportId ≠ token_request.
Proof. intros H. apply (f_equal req_method) in H. discriminate H. Qed.

Lemma submits_sent {A} (stage : M A) entries result w :
  submits stage entries result →
  (token_request ∉ requests_of stage w) ∧
  (length (requests_of stage w) ≤ 1)%nat.
Proof.
  intros Hsub. rewrite (submits_requests _ _ _ w Hsub).
  destruct (ToString (accessToken w)); cbn; (split; [|lia]).
  - rewrite not_elem_of_cons. split; [|apply not_elem_of_nil].
    apply not_eq_sym, token_request_not_batch.
  - apply not_elem_of_nil.
Qed.

Lemma readResults_sent reportId w :
  ∃ new, sent (readResults reportId w).2 = sent w ++ new ∧
    (token_request ∉ new) ∧ (length new ≤ 2)%nat.
Proof.
  destruct (readResults_run reportId w) as (_ & _ & H).
  pose proof token_request_not_batch. pose proof token_request_not_report.
  assert (∀ (new : list Request),
            sent (readResults reportId w).2 = sent w ++ new →
            Forall (λ r, r ≠ token_request) new → (length new ≤ 2)%nat →
            ∃ new, sent (readResults reportId w).2 = sent w ++ new ∧
              (token_request ∉ new) ∧ (length new ≤ 2)%nat) as Hnew.
  { intros new Hs Hall Hlen. exists new. split_and!; [done| |done].
    intros Hin. by eapply Forall_forall in Hin; [|exact Hall]. }
  destruct (ToString reportId) as [target|];
    [destruct (ToString (accessToken w)) as [token|]|].
  - destruct (round_trip w (length (sent w))) as [report|].
    + destruct (readback_entries report) as [entries|].
      * destruct H as [Hs _]. eapply Hnew; [exact Hs| |simpl; lia].
        by repeat constructor.
      * destruct H as (_ & _ & Hs). eapply Hnew; [exact Hs| |simpl; lia].
        by repeat constructor.
    + destruct H as (_ & _ & Hs). eapply Hnew; [exact Hs| |simpl; lia].
      by repeat constructor.
  - destruct H as (_ & _ & Hs). apply (Hnew []); [by rewrite app_nil_r|done|].
    simpl; lia.
  - destruct H as (_ & _ & Hs). apply (Hnew []); [by rewrite app_nil_r|done|].
    simpl; lia.
Qed.

Lemma readResults_appends reportId : appends (readResults reportId).
Proof.
  intros w. destruct (readResults_sent reportId w) as (new & H & _). eauto.
Qed.

Lemma Part000_main_requests w :
  requests_of Part000.main w =
    token_request ::
    match authenticate w with
    | (Throw _, _) => []
    | (Ret _, w1) =>
        requests_of Part000.createServiceRequest w1 ++
        match Part000.createServiceRequest w1 with
        | (Throw _, _) => []
        | (Ret ids, w2) =>
            requests_of (Part000.createReport (element ids 0) (element ids 1)) w2 ++
            match Part000.createReport (element ids 0) (element ids 1) w2 with
            | (Throw _, _) => []
            | (Ret ids', w3) => requests_of (readResults (element ids' 0)) w3
            end
        end
    end.
Proof.
  unfold Part000.main.
  rewrite requests_of_bind.
  - destruct (authenticate_run w) as [Hs1 _].
    rewrite (requests_of_sent _ _ _ Hs1). cbn.
    destruct (authenticate w) as [[[]|e] w1]; [|done]. f_equal.
    rewrite requests_of_bind.
    + destruct (Part000.createServiceRequest w1) as [[ids|e] w2]; [|done].
      f_equal. rewrite requests_of_bind; [done|..].
      * apply Part000_createReport_appends.
      * intros ids'. apply readResults_appends.
    + apply createServiceRequest_of_appends.
    + intros ids. apply appends_bind; [apply Part000_createReport_appends|].
      intros ids'. apply readResults_appends.
  - apply authenticate_appends.
  - intros []. apply appends_bind; [apply createServiceRequest_of_appends|].
    intros ids. apply appends_bind; [apply Part000_createReport_appends|].
    intros ids'. apply readResults_appends.
Qed.

(** ** The workflow *)

Lemma main_unfold w :
  Part000.main w =
    match authenticate w with
    | (Throw e, w1) => (Throw e, w1)
    | (Ret _, w1) =>
        match Part000.createServiceRequest w1 with
        | (Throw e, w2) => (Throw e, w2)
        | (Ret ids, w2) =>
            match Part000.createReport (element ids 0) (element ids 1) w2 with
            | (Throw e, w3) => (Throw e, w3)
            | (Ret ids', w3) => readResults (element ids' 0) w3
            end
        end
    end.
Proof. reflexivity. Qed.

Lemma readResults_requests reportId w :
  (token_request ∉ requests_of (readResults reportId) w) ∧
  (length (requests_of (readResults reportId) w) ≤ 2)%nat.
Proof.
  destruct (readResults_sent reportId w) as (new & Hs & Hnew).
  by rewrite (requests_of_sent _ _ _ Hs).
Qed.

Lemma submits_returns_one {A} (stage : M A) entries result w a w' :
  submits stage entries result →
  stage w = (Ret a, w') →
  length (requests_of stage w) = 1 ∧
  ∃ token, ToString (accessToken w') = Ret token.
Proof.
  intros Hsub Hstage.
  destruct (submits_returns _ _ _ _ _ _ Hsub Hstage)
    as (token & data & Htoken & Hsent & _).
  destruct (Hsub w) as [Hsame _]. rewrite Hstage in Hsame. cbn in Hsame.
  split; [|rewrite Hsame; eauto].
  by rewrite (submits_requests _ _ _ w Hsub), Htoken.
Qed.

(** C6.  [main] stops at the first stage that throws: its outcome and final
    world are those of that stage, so no request of a later stage is sent
    and no identifier of a later stage is drawn.  When the order throws,
    the requests of the run are the token request and what the order has
    sent, which is one request if the token converts to a string and none
    otherwise.  In every run the token request is sent once, at most four
    requests follow it, and at most four identifiers are drawn: no stage
    runs twice. *)
Theorem main_stops_at_first_failure (w : World) :
  let run := Part000.main w in
  (∀ e w1, authenticate w = (Throw e, w1) →
     run = (Throw e, w1) ∧
     requests_of Part000.main w = [token_request] ∧
     uuid_drawn (run.2) = uuid_drawn w) ∧
  (∀ w1 e w2,
     authenticate w = (Ret (), w1) →
     Part000.createServiceRequest w1 = (Throw e, w2) →
     run = (Throw e, w2) ∧
     requests_of Part000.main w =
       token_request :: requests_of Part000.createServiceRequest w1 ∧
     length (requests_of Part000.main w) =
       match ToString (accessToken w1) with Ret _ => 2 | Throw _ => 1 end ∧
     uuid_drawn (run.2) = 2 + uuid_drawn w) ∧
  (∀ w1 ids w2 e w3,
     authenticate w = (Ret (), w1) →
     Part000.createServiceRequest w1 = (Ret ids, w2) →
     Part000.createReport (element ids 0) (element ids 1) w2 = (Throw e, w3) →
     run = (Throw e, w3) ∧
     length (requests_of Part000.main w) = 3 ∧
     uuid_drawn (run.2) = 4 + uuid_drawn w) ∧
  (∀ w1 ids w2 ids' w3,
     authenticate w = (Ret (), w1) →
     Part000.createServiceRequest w1 = (Ret ids, w2) →
     Part000.createReport (element ids 0) (element ids 1) w2 = (Ret ids', w3) →
     run = readResults (element ids' 0) w3) ∧
  (∃ rest, requests_of Part000.main w = token_request :: rest ∧
     (token_request ∉ rest) ∧ (length rest ≤ 4)%nat) ∧
  (uuid_drawn (run.2) ≤ 4 + uuid_drawn w)%nat.
Proof.
  intros run. subst run.
  pose proof (Part000_main_requests w) as Hreq. rewrite main_unfold.
  pose proof (authenticate_run w) as (_ & Hu1).
  destruct (authenticate w) as [[[]|e1] w1] eqn:H1; cbn in Hu1.
  2:{ split_and!; try by (intros; simplify_eq; congruence).
      - intros e w1' [= <- <-]. done.
      - exists []. split_and!; [done|apply not_elem_of_nil|simpl; lia].
      - cbn. lia. }
  pose proof (createServiceRequest_of_submits Part000.order_entries) as Hsub2.
  pose proof (createServiceRequest_of_run Part000.order_entries w1)
    as (_ & Hu2 & _).
  pose proof (submits_requests _ _ _ w1 Hsub2) as Hr2.
  pose proof (submits_sent _ _ _ w1 Hsub2) as [Hno2 Hlen2].
  pose proof (λ ids w', submits_returns_one _ _ _ w1 ids w' Hsub2) as Hone2.
  fold Part000.createServiceRequest in Hu2, Hr2, Hno2, Hlen2, Hone2.
  destruct (Part000.createServiceRequest w1) as [[ids|e2] w2] eqn:H2;
    cbn in Hu2.
  2:{ rewrite app_nil_r in Hreq.
      split_and!; try by (intros; simplify_eq; congruence).
      - intros w1' e w2' [= <-] He. rewrite H2 in He. injection He as <- <-.
        split_and!; [done|done| |cbn; lia].
        rewrite Hreq, Hr2. by destruct (ToString (accessToken w1)).
      - eexists. split; [exact Hreq|]. split; [done|lia].
      - cbn. lia. }
  destruct (Hone2 ids w2 eq_refl) as (Hlen2' & token & Htoken).
  pose proof (Part000_createReport_submits (element ids 0) (element ids 1))
    as Hsub3.
  pose proof (Part000_createReport_run (element ids 0) (element ids 1) w2)
    as (_ & Hu3 & _).
  pose proof (submits_requests _ _ _ w2 Hsub3) as Hr3.
  pose proof (submits_sent _ _ _ w2 Hsub3) as [Hno3 Hlen3].
  rewrite Htoken in Hr3.
  destruct (Part000.createReport (element ids 0) (element ids 1) w2)
    as [[ids'|e3] w3] eqn:H3; cbn in Hu3.
  2:{ rewrite app_nil_r in Hreq.
      split_and!; try by (intros; simplify_eq; congruence).
      - intros w1' ids0 w2' e w3' [= <-] He2. rewrite H2 in He2.
        injection He2 as <- <-. intros He3. rewrite H3 in He3.
        injection He3 as <- <-.
        split_and!; [done| |cbn; lia].
        rewrite Hreq. cbn. rewrite length_app, Hlen2', Hr3. done.
      - eexists. split; [exact Hreq|]. split.
        + rewrite not_elem_of_app. done.
        + rewrite length_app. lia.
      - cbn. lia. }
  destruct (readResults_requests (element ids' 0) w3) as [Hno4 Hlen4].
  pose proof (readResults_run (element ids' 0) w3) as (_ & Hu4 & _).
  split_and!; try by (intros; simplify_eq; congruence).
  - eexists. split; [exact Hreq|]. split.
    + rewrite !not_elem_of_app. done.
    + rewrite !length_app. lia.
  - rewrite Hu4. lia.
Qed.

(** Refused credentials: the run ends with the token request. *)
Lemma main_stops_at_first_failure_witness :
  Part000.main refused_world
    = (Throw (Error "Authentication failed."), (authenticate refused_world).2) ∧
  requests_of Part000.main refused_world = [token_request] ∧
  uuid_drawn (Part000.main refused_world).2 = 0.
Proof.
  destruct (main_stops_at_first_failure refused_world) as (Hauth & _).
  apply (Hauth (Error "Authentication failed.") (authenticate refused_world).2).
  assert ((authenticate refused_world).1 = Throw (Error "Authentication failed."))
    as <- by (vm_compute; reflexivity).
  apply surjective_pairing.
Defined.

(** ** The token *)

(** C10.  [authenticate] changes the token only on success.  When the token
    endpoint answers with a response that is not [ok], [authenticate] throws
    [Error "Authentication failed."] and [accessToken] is what it was;
    whenever [authenticate] throws, [accessToken] is what it was; when it
    returns, the response was [ok], its body parsed, and [accessToken] is the
    [access_token] property of that body. *)
Theorem authenticate_token_atomic (w : World) :
  (∀ resp, network w (length (sent w)) = Some resp → ok resp = false →
     (authenticate w).1 = Throw (Error "Authentication failed.") ∧
     accessToken (authenticate w).2 = accessToken w) ∧
  (∀ e, (authenticate w).1 = Throw e →
     accessToken (authenticate w).2 = accessToken w) ∧
  ((authenticate w).1 = Ret () →
     ∃ resp data, network w (length (sent w)) = Some resp ∧ ok resp = true ∧
       json resp = Some data ∧
       member data "access_token" = Ret (accessToken (authenticate w).2)) ∧
  (∀ resp data token, network w (length (sent w)) = Some resp →
     ok resp = true → json resp = Some data →
     member data "access_token" = Ret token →
     (authenticate w).1 = Ret () ∧ accessToken (authenticate w).2 = token).
Proof.
  unfold authenticate. run.
  destruct (network w (length (sent w))) as [resp|]; cbn;
    [|by repeat split; intros].
  destruct (ok resp) eqn:Hok; cbn;
    [|repeat split; intros; simplify_eq; congruence].
  destruct (json resp) as [data|] eqn:Hjson; cbn;
    [|repeat split; intros; simplify_eq; congruence].
  destruct (member data "access_token") as [token|e'] eqn:Hm; cbn;
    repeat split; intros; simplify_eq; eauto 6; congruence.
Qed.

(** On a first run against an endpoint that refuses the credentials the
    token stays [null]; against the sample endpoint it becomes the
    [access_token] of the body. *)
Lemma authenticate_token_atomic_witness :
  (authenticate refused_world).1 = Throw (Error "Authentication failed.") ∧
  accessToken (authenticate refused_world).2 = VNull ∧
  accessToken (authenticate sample_world).2 = VStr "secret".
Proof.
  destruct (authenticate_token_atomic refused_world) as (Hrefused & _).
  destruct (authenticate_token_atomic sample_world) as (_ & _ & _ & Hok).
  destruct (Hrefused _ eq_refl eq_refl) as [Hthrow Hsame].
  destruct (Hok _ _ (VStr "secret") eq_refl eq_refl eq_refl eq_refl)
    as [_ Hset].
  exact (conj Hthrow (conj Hsame Hset)).
Defined.

(** ** The read-back batch *)

Lemma readback_entries_each report items urls :
  member report "result" = Ret (VArr items) →
  each (λ r, member r "reference") items = Ret urls →
  readback_entries report = Ret (VArr (get_entry <$> urls)).
Proof.
  intros Hresult Heach. unfold readback_entries. rewrite Hresult. cbn.
  by rewrite (each_read_entry _ _ Heach).
Qed.

(** C2.  The read-back batch of [readResults] is the element-wise image of
    [report.result]: with the report identifier and the token converted to
    strings and the report delivered, the requests sent are the read of the
    report and one batch, which holds one [GET] entry per reference, in the
    same order and of the same length; for a result of two references [a]
    and [b] it is exactly the two entries [GET a], [GET b]. *)
Theorem readResults_batch (reportId : value) (w : World)
    (target token : string) (report : value) (items urls : list value) :
  ToString reportId = Ret target →
  ToString (accessToken w) = Ret token →
  delivered w (length (sent w)) = Some report →
  member report "result" = Ret (VArr items) →
  each (λ r, member r "reference") items = Ret urls →
  requests_of (readResults reportId) w =
    [report_request token target;
     batch_request token (bundle_of (get_entry <$> urls))] ∧
  batches_of (readResults reportId) w = [get_entry <$> urls] ∧
  length (get_entry <$> urls) = length items ∧
  (∀ i r, items !! i = Some r →
     ∃ url, member r "reference" = Ret url ∧
       (get_entry <$> urls) !! i = Some (get_entry url)) ∧
  (∀ ra rb a b, items = [ra; rb] →
     member ra "reference" = Ret a → member rb "reference" = Ret b →
     get_entry <$> urls = [get_entry a; get_entry b]).
Proof.
  intros Htarget Htoken Hreport%delivered_Ret Hresult Heach.
  assert (requests_of (readResults reportId) w =
            [report_request token target;
             batch_request token (bundle_of (get_entry <$> urls))]) as Hreq.
  { apply requests_of_sent.
    destruct (readResults_run reportId w) as (_ & _ & H).
    rewrite Htarget, Htoken, Hreport,
      (readback_entries_each _ _ _ Hresult Heach) in H.
    by destruct H as [-> _]. }
  split_and!.
  - done.
  - unfold batches_of. by rewrite Hreq.
  - rewrite length_fmap. eapply each_length, Heach.
  - intros i r Hr.
    destruct (each_lookup _ _ _ _ _ Heach Hr) as (url & Hurl & Hi).
    exists url. split; [done|]. by rewrite list_lookup_fmap, Hi.
  - intros ra rb a b -> Ha Hb. cbn in Heach. rewrite Ha, Hb in Heach.
    by injection Heach as <-.
Qed.

(** Scenario C: the report with results [Observation/A], [Observation/B]
    gives the batch of exactly these two reads. *)
Lemma readResults_batch_witness :
  requests_of (readResults (VStr "DiagnosticReport/Z")) (sample_world_after 3) =
    [report_request "null" "DiagnosticReport/Z";
     batch_request "null"
       (bundle_of [get_entry (VStr "Observation/A");
                   get_entry (VStr "Observation/B")])] ∧
  batches_of (readResults (VStr "DiagnosticReport/Z")) (sample_world_after 3) =
    [[get_entry (VStr "Observation/A"); get_entry (VStr "Observation/B")]].
Proof.
  destruct (readResults_batch (VStr "DiagnosticReport/Z")
              (sample_world_after 3) "DiagnosticReport/Z" "null" sample_report
              [VObj [("reference", VStr "Observation/A")];
               VObj [("reference", VStr "Observation/B")]]
              [VStr "Observation/A"; VStr "Observation/B"]
              eq_refl eq_refl eq_refl eq_refl eq_refl)
    as (Hrequests & Hbatches & _).
  exact (conj Hrequests Hbatches).
Defined.

(** ** Creates and reads *)

Lemma readback_entries_inv report entries :
  readback_entries report = Ret entries →
  ∃ items es, member report "result" = Ret (VArr items) ∧
    each read_entry items = Ret es ∧ entries = VArr es.
Proof.
  unfold readback_entries.
  destruct (member report "result") as [result|]; cbn; [|done].
  destruct result as [| | | | |items|]; cbn; try done.
  destruct (each read_entry items) as [es|] eqn:Heach; cbn; [|done].
  intros [= <-]. eauto.
Qed.

Lemma readResults_batches reportId w :
  Forall (reads_report_references w) (batches_of (readResults reportId) w).
Proof.
  destruct (readResults_run reportId w) as (_ & _ & H). unfold batches_of.
  destruct (ToString reportId) as [target|].
  2:{ destruct H as (_ & _ & H).
      rewrite (requests_of_sent _ _ []); [done|by rewrite app_nil_r]. }
  destruct (ToString (accessToken w)) as [token|].
  2:{ destruct H as (_ & _ & H).
      rewrite (requests_of_sent _ _ []); [done|by rewrite app_nil_r]. }
  destruct (round_trip w (length (sent w))) as [report|] eqn:Hreport.
  2:{ destruct H as (_ & _ & H). by rewrite (requests_of_sent _ _ _ H). }
  destruct (readback_entries report) as [entries|] eqn:Hentries.
  2:{ destruct H as (_ & _ & H). by rewrite (requests_of_sent _ _ _ H). }
  destruct H as [H _]. rewrite (requests_of_sent _ _ _ H).
  apply readback_entries_inv in Hentries as (items & es & Hresult & Heach & ->).
  cbn. repeat constructor. exists report, items.
  split_and!; [by apply delivered_Ret|done|by eapply each_length|].
  intros i e He.
  destruct (each_lookup_inv _ _ _ _ _ Heach He) as (r & Hr & Hread).
  unfold read_entry in Hread.
  destruct (member r "reference") as [url|] eqn:Hurl; cbn in Hread; [|done].
  injection Hread as <-. split; [done|]. exists r. by rewrite Hurl.
Qed.

Lemma submits_batches_Forall {A} (stage : M A) entries result
    (P : list value → Prop) w :
  submits stage entries result →
  P (entries w) → Forall P (batches_of stage w).
Proof.
  intros Hsub HP. rewrite (submits_batches _ _ _ w Hsub).
  destruct (ToString (accessToken w)); by repeat constructor.
Qed.

(** C8.  A batch that allocates local identifiers holds creates only, and
    the one batch that holds reads allocates none: every entry of the
    batches of [createServiceRequest] and [createReport] is a [POST];
    [readResults] draws no identifier, and each entry of its batch is a
    [GET] of the reference at the same index of the report it has read. *)
Theorem creates_and_reads_in_separate_batches
    (patientId serviceRequestId reportId : value) (w : World) :
  Forall all_post (batches_of Part000.createServiceRequest w) ∧
  Forall all_post
    (batches_of (Part000.createReport patientId serviceRequestId) w) ∧
  Forall all_post (batches_of IndexOrder.createServiceRequest w) ∧
  Forall all_post (batches_of IndexReport.createServiceRequest w) ∧
  Forall all_post
    (batches_of (IndexReport.createReport patientId serviceRequestId) w) ∧
  uuid_drawn (readResults reportId w).2 = uuid_drawn w ∧
  Forall (reads_report_references w) (batches_of (readResults reportId) w).
Proof.
  split_and!.
  - eapply submits_batches_Forall; [apply createServiceRequest_of_submits|].
    by repeat constructor.
  - eapply submits_batches_Forall; [apply Part000_createReport_submits|].
    by repeat constructor.
  - eapply submits_batches_Forall; [apply createServiceRequest_of_submits|].
    by repeat constructor.
  - eapply submits_batches_Forall; [apply createServiceRequest_of_submits|].
    by repeat constructor.
  - eapply submits_batches_Forall; [apply IndexReport_createReport_submits|].
    by repeat constructor.
  - by destruct (readResults_run reportId w) as (_ & Hu & _).
  - apply readResults_batches.
Qed.

(** ** Create urls *)

(** In every other batch of creates the url of each entry is the resource
    type of its payload. *)
Lemma create_urls_are_resource_types (patientId serviceRequestId : value)
    (patientUrn exampleMrn observtionUrn1 observtionUrn2 : string) :
  forallb url_is_resource_type (Part000.order_entries patientUrn exampleMrn)
    = true ∧
  forallb url_is_resource_type
    (Part000.report_entries patientId serviceRequestId
       observtionUrn1 observtionUrn2) = true ∧
  forallb url_is_resource_type (IndexOrder.order_entries patientUrn exampleMrn)
    = true ∧
  forallb url_is_resource_type (IndexReport.order_entries patientUrn exampleMrn)
    = true.
Proof. done. Qed.

(** C9 fails on the second program of [index.js]: the first entry of the
    batch of [createReport] carries an [Organization] and posts it to the
    url [Organizaiton]; the four other entries agree with their resource
    types.  The batch goes out whenever the token converts to a string, and
    every batch the function sends is of this kind. *)
Theorem lab_entry_url_is_misspelt (patientId serviceRequestId : value)
    (w : World) :
  (∀ token, ToString (accessToken w) = Ret token →
     ∃ es e,
       batches_of (IndexReport.createReport patientId serviceRequestId) w
         = [es] ∧
       es !! 0 = Some e ∧
       entry_url e = Ret (VStr "Organizaiton") ∧
       resource_type e = Ret (VStr "Organization") ∧
       url_is_resource_type <$> es = [false; true; true; true; true]) ∧
  Forall (λ es, ∃ e,
            es !! 0 = Some e ∧
            entry_url e = Ret (VStr "Organizaiton") ∧
            resource_type e = Ret (VStr "Organization") ∧
            url_is_resource_type <$> es = [false; true; true; true; true])
    (batches_of (IndexReport.createReport patientId serviceRequestId) w).
Proof.
  pose proof (IndexReport_createReport_submits patientId serviceRequestId)
    as Hsub.
  split.
  - intros token Htoken. eexists _, _.
    split; [by rewrite (submits_batches _ _ _ w Hsub), Htoken|]. done.
  - eapply submits_batches_Forall; [exact Hsub|]. eexists. done.
Qed.

(** On the sample server the report batch is sent with the misspelt url. *)
Lemma lab_entry_url_is_misspelt_witness :
  ∃ es e,
    batches_of (IndexReport.createReport (VStr "Patient/X")
                  (VStr "ServiceRequest/Y")) (sample_world_after 2) = [es] ∧
    es !! 0 = Some e ∧
    entry_url e = Ret (VStr "Organizaiton") ∧
    resource_type e = Ret (VStr "Organization") ∧
    url_is_resource_type <$> es = [false; true; true; true; true].
Proof.
  exact (proj1 (lab_entry_url_is_misspelt (VStr "Patient/X")
                  (VStr "ServiceRequest/Y") (sample_world_after 2))
           "null" eq_refl).
Defined.

(** * Further properties of the script *)

Lemma drill_cons v a rest :
  drill v (a :: rest) = access v a ≫= λ v', drill v' rest.
Proof. reflexivity. Qed.

(** ** Local identifiers inside a batch *)

Lemma pair_points_back (p o ref : value) :
  references_in p = [] → references_in o = [ref] →
  member p "fullUrl" = Ret ref →
  references_point_back [] [p; o].
Proof.
  intros Hp Ho Hurl [|[|i]] e ref' He; cbn in He; simplify_eq.
  - rewrite Hp. by intros ?%elem_of_nil.
  - rewrite Ho. intros ->%list_elem_of_singleton. right.
    exists 0, p. split_and!; [lia|done|done].
Qed.

Lemma order_is_linked_intro entries w :
  linked_order w
    (entries (urn w (uuid_drawn w)) (uuid_source w (S (uuid_drawn w)))) →
  order_is_linked (createServiceRequest_of entries) w.
Proof.
  intros Hlinked.
  pose proof (createServiceRequest_of_submits entries) as Hsub. split.
  - by eapply submits_batches_Forall.
  - intros token Htoken. rewrite (submits_batches _ _ _ w Hsub), Htoken. eauto.
Qed.

(** X1.  Every order batch a program sends files the patient under the
    local identifier of the first draw, has the order's subject refer to
    exactly that identifier, keys the conditional create on the record
    number of the second draw, which is the identifier the patient carries,
    and has no entry refer to anything else; the batch is sent whenever the
    token converts to a string. *)
Theorem order_batch_is_linked (w : World) :
  order_is_linked Part000.createServiceRequest w ∧
  order_is_linked IndexOrder.createServiceRequest w ∧
  order_is_linked IndexReport.createServiceRequest w.
Proof.
  split_and!; apply order_is_linked_intro; eexists _, _;
    (split_and!; [done..|]); by eapply pair_points_back.
Qed.

(** On the sample server the one batch of the order is linked. *)
Lemma order_batch_is_linked_witness :
  ∃ es, batches_of Part000.createServiceRequest (sample_world_after 1) = [es] ∧
    linked_order (sample_world_after 1) es.
Proof.
  destruct (order_batch_is_linked (sample_world_after 1))
    as ((Hall & Hsent) & _).
  destruct (Hsent "null" eq_refl) as [es Hes]. exists es. split; [exact Hes|].
  rewrite Hes in Hall. exact (Forall_inv Hall).
Defined.

(** Finds where a reference of a concrete batch points. *)
Ltac point_back :=
  repeat match goal with
  | H : _ ∈ _ :: _ |- _ => apply elem_of_cons in H as [->|H]
  | H : _ ∈ [] |- _ => by apply elem_of_nil in H
  end;
  first
    [ left; by repeat first [apply list_elem_of_here | apply list_elem_of_further]
    | right; exists 0; eexists; split_and!; [lia|reflexivity|reflexivity]
    | right; exists 1; eexists; split_and!; [lia|reflexivity|reflexivity]
    | right; exists 2; eexists; split_and!; [lia|reflexivity|reflexivity]
    | right; exists 3; eexists; split_and!; [lia|reflexivity|reflexivity] ].

(** X2.  In the report batch of both programs every reference of an entry
    is one of the two identifiers handed to [createReport] or the [fullUrl]
    of an entry placed earlier in the same batch. *)
Theorem report_batch_references_point_back
    (patientId serviceRequestId : value) (w : World) :
  Forall (references_point_back [patientId; serviceRequestId])
    (batches_of (Part000.createReport patientId serviceRequestId) w) ∧
  Forall (references_point_back [patientId; serviceRequestId])
    (batches_of (IndexReport.createReport patientId serviceRequestId) w).
Proof.
  split.
  - eapply submits_batches_Forall; [apply Part000_createReport_submits|].
    intros [|[|[|i]]] e ref He Href; cbn in He; simplify_eq;
      cbn in Href; point_back.
  - eapply submits_batches_Forall; [apply IndexReport_createReport_submits|].
    intros [|[|[|[|[|i]]]]] e ref He Href; cbn in He; simplify_eq;
      cbn in Href; point_back.
Qed.

(** Reads the conditional create of a concrete entry. *)
Ltac own_identifier :=
  intros predicate Hp; cbv in Hp;
  first [discriminate Hp
        |injection Hp as <-; eexists; split; reflexivity].

(** X3.  Wherever an entry of a create batch has an [ifNoneExist], it is
    [identifier=] followed by the value of the first identifier of the
    resource the entry carries. *)
Theorem conditional_creates_match_their_payload
    (patientId serviceRequestId : value) (w : World) :
  Forall (Forall conditional_on_own_identifier)
    (batches_of Part000.createServiceRequest w) ∧
  Forall (Forall conditional_on_own_identifier)
    (batches_of (Part000.createReport patientId serviceRequestId) w) ∧
  Forall (Forall conditional_on_own_identifier)
    (batches_of IndexOrder.createServiceRequest w) ∧
  Forall (Forall conditional_on_own_identifier)
    (batches_of IndexReport.createServiceRequest w) ∧
  Forall (Forall conditional_on_own_identifier)
    (batches_of (IndexReport.createReport patientId serviceRequestId) w).
Proof.
  split_and!.
  - eapply submits_batches_Forall; [apply createServiceRequest_of_submits|].
    repeat (apply Forall_cons_2; [own_identifier|]). apply Forall_nil_2.
  - eapply submits_batches_Forall; [apply Part000_createReport_submits|].
    repeat (apply Forall_cons_2; [own_identifier|]). apply Forall_nil_2.
  - eapply submits_batches_Forall; [apply createServiceRequest_of_submits|].
    repeat (apply Forall_cons_2; [own_identifier|]). apply Forall_nil_2.
  - eapply submits_batches_Forall; [apply createServiceRequest_of_submits|].
    repeat (apply Forall_cons_2; [own_identifier|]). apply Forall_nil_2.
  - eapply submits_batches_Forall; [apply IndexReport_createReport_submits|].
    repeat (apply Forall_cons_2; [own_identifier|]). apply Forall_nil_2.
Qed.

(** ** The token on the wire *)

Lemma bears_token_bind {A B} (m : M A) (k : A → M B) :
  appends m → (∀ a, appends (k a)) →
  bears_token m → (∀ a, bears_token (k a)) → bears_token (m ≫= k).
Proof.
  intros Hm Hk Hbm Hbk w. destruct (Hbm w) as [Htok Hreq]. split.
  - unfold mbind, M_bind. destruct (m w) as [[a|e] w1]; cbn in *; [|done].
    destruct (Hbk a w1) as [-> _]. done.
  - intros r. rewrite requests_of_bind by done.
    intros [Hr|Hr]%elem_of_app; [by apply Hreq|].
    destruct (m w) as [[a|e] w1]; cbn in *; [|by apply elem_of_nil in Hr].
    destruct (Hbk a w1) as [_ Hreq']. rewrite <- Htok. by apply Hreq'.
Qed.

Lemma submits_bears_token {A} (stage : M A) entries result :
  submits stage entries result → bears_token stage.
Proof.
  intros Hsub w. destruct (Hsub w) as [Ht _]. split; [done|]. intros r.
  rewrite (submits_requests _ _ _ w Hsub).
  destruct (ToString (accessToken w)) as [token|];
    [|by intros ?%elem_of_nil].
  intros ->%list_elem_of_singleton. by exists token.
Qed.

Lemma createServiceRequest_of_bears_token entries :
  bears_token (createServiceRequest_of entries).
Proof. eapply submits_bears_token, createServiceRequest_of_submits. Qed.

Lemma Part000_createReport_bears_token patientId serviceRequestId :
  bears_token (Part000.createReport patientId serviceRequestId).
Proof. eapply submits_bears_token, Part000_createReport_submits. Qed.

Lemma IndexReport_createReport_bears_token patientId serviceRequestId :
  bears_token (IndexReport.createReport patientId serviceRequestId).
Proof. eapply submits_bears_token, IndexReport_createReport_submits. Qed.

Lemma readResults_bears_token reportId : bears_token (readResults reportId).
Proof.
  intros w. destruct (readResults_run reportId w) as (Ht & _ & H).
  split; [done|]. intros r.
  destruct (ToString reportId) as [target|].
  2:{ destruct H as (_ & _ & Hs).
      rewrite (requests_of_sent _ _ []); [|by rewrite app_nil_r].
      by intros ?%elem_of_nil. }
  destruct (ToString (accessToken w)) as [token|].
  2:{ destruct H as (_ & _ & Hs).
      rewrite (requests_of_sent _ _ []); [|by rewrite app_nil_r].
      by intros ?%elem_of_nil. }
  destruct (round_trip w (length (sent w))) as [report|].
  - destruct (readback_entries report) as [entries|].
    + destruct H as [Hs _]. rewrite (requests_of_sent _ _ _ Hs).
      rewrite !elem_of_cons. intros [->|[->|?%elem_of_nil]]; by exists token.
    + destruct H as (_ & _ & Hs). rewrite (requests_of_sent _ _ _ Hs).
      intros ->%list_elem_of_singleton. by exists token.
  - destruct H as (_ & _ & Hs). rewrite (requests_of_sent _ _ _ Hs).
    intros ->%list_elem_of_singleton. by exists token.
Qed.

Lemma after_authenticate {B} (rest : M B) w w1 :
  appends rest → bears_token rest →
  authenticate w = (Ret (), w1) →
  ∃ later, requests_of (authenticate ≫= λ _, rest) w = token_request :: later ∧
    ∀ r, r ∈ later →
      ∃ token, ToString (accessToken w1) = Ret token ∧
        header r "Authorization" = Some ("Bearer " +:+ token).
Proof.
  intros Ha Hb Hauth. exists (requests_of rest w1). split.
  - rewrite requests_of_bind; [|apply authenticate_appends|done].
    destruct (authenticate_run w) as [Hs _].
    by rewrite (requests_of_sent _ _ _ Hs), Hauth.
  - by destruct (Hb w1).
Qed.

(** X4.  Once [authenticate] has returned, every later request of a run
    carries [Bearer] and the token it stored, converted to a string, in all
    three programs; the token request itself has no [Authorization]
    header. *)
Theorem requests_carry_the_token (w w1 : World) :
  authenticate w = (Ret (), w1) →
  header token_request "Authorization" = None ∧
  later_requests_bear Part000.main w w1 ∧
  later_requests_bear IndexOrder.main w w1 ∧
  later_requests_bear IndexReport.main w w1.
Proof.
  intros Hauth. split; [done|].
  split_and!; apply after_authenticate; try done.
  - apply appends_bind; [apply createServiceRequest_of_appends|].
    intros ids. apply appends_bind; [apply Part000_createReport_appends|].
    intros ids'. apply readResults_appends.
  - apply bears_token_bind;
      [apply createServiceRequest_of_appends
      |intros; apply appends_bind;
         [apply Part000_createReport_appends|intros; apply readResults_appends]
      |apply createServiceRequest_of_bears_token|].
    intros ids. apply bears_token_bind;
      [apply Part000_createReport_appends|intros; apply readResults_appends
      |apply Part000_createReport_bears_token
      |intros; apply readResults_bears_token].
  - apply appends_bind; [apply createServiceRequest_of_appends|].
    intros ids. apply appends_ret.
  - apply bears_token_bind;
      [apply createServiceRequest_of_appends|intros; apply appends_ret
      |apply createServiceRequest_of_bears_token|].
    intros ids w'. split; [done|]. unfold requests_of. cbn.
    rewrite drop_all. by intros r ?%elem_of_nil.
  - apply appends_bind; [apply createServiceRequest_of_appends|].
    intros ids. apply appends_bind; [apply IndexReport_createReport_appends|].
    intros ids'. apply readResults_appends.
  - apply bears_token_bind;
      [apply createServiceRequest_of_appends
      |intros; apply appends_bind;
         [apply IndexReport_createReport_appends
         |intros; apply readResults_appends]
      |apply createServiceRequest_of_bears_token|].
    intros ids. apply bears_token_bind;
      [apply IndexReport_createReport_appends|intros; apply readResults_appends
      |apply IndexReport_createReport_bears_token
      |intros; apply readResults_bears_token].
Qed.

(** ** What the order prints *)

Lemma round_trip_Ret w n data :
  round_trip w n = Ret data ↔
  ∃ resp, network w n = Some resp ∧ json resp = Some data.
Proof.
  unfold round_trip. destruct (network w n) as [resp|].
  - destruct (json resp) as [d|] eqn:Hj.
    + split; [intros [= <-]; eauto|]. intros (r & [= <-] & Hr). congruence.
    + split; [done|]. intros (r & [= <-] & Hr). congruence.
  - split; [done|]. by intros (r & ? & _).
Qed.

Lemma createServiceRequest_of_steps entries w token data :
  ToString (accessToken w) = Ret token →
  delivered w (length (sent w)) = Some data →
  let stage := createServiceRequest_of entries in
  let said lines := console (stage w).2 = console w ++ LogJson data :: lines in
  match detail_text_at data 0 with
  | Throw e => (stage w).1 = Throw e ∧ said []
  | Ret text0 =>
  match location_at data 0 with
  | Throw e => (stage w).1 = Throw e ∧ said [Log text0]
  | Ret location0 =>
  match detail_text_at data 1 with
  | Throw e => (stage w).1 = Throw e ∧ said [Log text0; Log location0]
  | Ret text1 =>
  match location_at data 1 with
  | Throw e =>
      (stage w).1 = Throw e ∧ said [Log text0; Log location0; Log text1]
  | Ret location1 =>
      (stage w).1 = Ret [location0; location1] ∧
      said [Log text0; Log location0; Log text1; Log location1]
  end end end end.
Proof.
  intros Htoken (resp & Hnet & Hjson)%delivered_Ret%round_trip_Ret.
  unfold createServiceRequest_of, location_at, detail_text_at. run.
  rewrite Htoken. cbn. rewrite Hnet. cbn. rewrite Hjson. cbn.
  repeat match goal with
  | |- context [drill data ?p] => destruct (drill data p); cbn
  end; by rewrite <- ?app_assoc.
Qed.

(** X5.  When [createServiceRequest] returns, it has printed the body and
    then, for entry 0 and entry 1 in turn, the detail text and the
    location; the two locations printed are the two it returns. *)
Theorem order_prints_what_it_returns entries (w : World) (ids : list value) :
  (createServiceRequest_of entries w).1 = Ret ids →
  ∃ data text0 text1 location0 location1,
    delivered w (length (sent w)) = Some data ∧
    detail_text_at data 0 = Ret text0 ∧ location_at data 0 = Ret location0 ∧
    detail_text_at data 1 = Ret text1 ∧ location_at data 1 = Ret location1 ∧
    ids = [location0; location1] ∧
    console (createServiceRequest_of entries w).2 =
      console w ++ [LogJson data; Log text0; Log location0;
                    Log text1; Log location1].
Proof.
  intros Hret.
  destruct (submits_returns _ _ _ w ids (createServiceRequest_of entries w).2
              (createServiceRequest_of_submits entries))
    as (token & data & Htoken & _ & Hdata & _).
  { rewrite <- Hret. apply surjective_pairing. }
  apply delivered_Ret in Hdata.
  pose proof (createServiceRequest_of_steps entries w token data Htoken Hdata)
    as H.
  cbv zeta in H. exists data.
  destruct (detail_text_at data 0) as [text0|]; [|destruct H; congruence].
  destruct (location_at data 0) as [location0|]; [|destruct H; congruence].
  destruct (detail_text_at data 1) as [text1|]; [|destruct H; congruence].
  destruct (location_at data 1) as [location1|]; [|destruct H; congruence].
  destruct H as [Hids Hsaid]. exists text0, text1, location0, location1.
  split_and!; try done. congruence.
Qed.

(** X6.  Sent under a token that converts to a string and answered with a
    single entry whose text and location can be read,
    [createServiceRequest] prints the body, that text and that location,
    and only then throws the [TypeError]. *)
Theorem order_prints_first_entry_before_failing entries (w : World)
    (token : string) (data first text0 location0 : value) :
  ToString (accessToken w) = Ret token →
  delivered w (length (sent w)) = Some data →
  entries_of data = Some [first] →
  detail_text_at data 0 = Ret text0 → location_at data 0 = Ret location0 →
  (createServiceRequest_of entries w).1 = Throw TypeError ∧
  console (createServiceRequest_of entries w).2 =
    console w ++ [LogJson data; Log text0; Log location0].
Proof.
  intros Htoken Hdata Hone Htext0 Hloc0.
  pose proof (createServiceRequest_of_steps entries w token data Htoken Hdata)
    as H.
  cbv zeta in H. rewrite Htext0, Hloc0 in H.
  assert (detail_text_at data 1 = Throw TypeError) as Hmiss.
  { unfold detail_text_at. destruct (drill data _) as [v|e] eqn:Hd.
    - pose proof (drill_entry_present _ _ _ _ _ _ Hd Hone) as Hlt.
      cbn in Hlt. lia.
    - by rewrite (drill_throw _ _ _ Hd). }
  by rewrite Hmiss in H.
Qed.

Lemma submits_delivered {A} (stage : M A) entries result w token data :
  submits stage entries result →
  ToString (accessToken w) = Ret token →
  delivered w (length (sent w)) = Some data →
  (stage w).1 = result data.
Proof.
  intros Hsub Htoken Hdata%delivered_Ret.
  by rewrite (submits_outcome _ _ _ w Hsub), Htoken, Hdata.
Qed.

(** X7.  A body without an [entry], delivered to a batch sent under a token
    that converts to a string, makes the batch functions throw a
    [TypeError]: [createServiceRequest] after printing the body,
    [createReport] without printing anything. *)
Theorem missing_entry_is_a_type_error (patientId serviceRequestId : value)
    entries (w : World) (token : string) (data : value) :
  ToString (accessToken w) = Ret token →
  delivered w (length (sent w)) = Some data →
  member data "entry" = Ret VUndefined →
  ((createServiceRequest_of entries w).1 = Throw TypeError ∧
   console (createServiceRequest_of entries w).2 = console w ++ [LogJson data]) ∧
  ((Part000.createReport patientId serviceRequestId w).1 = Throw TypeError ∧
   console (Part000.createReport patientId serviceRequestId w).2 = console w) ∧
  ((IndexReport.createReport patientId serviceRequestId w).1 = Throw TypeError ∧
   console (IndexReport.createReport patientId serviceRequestId w).2
     = console w).
Proof.
  intros Htoken Hdata Hentry.
  assert (∀ i path, drill data (Dot "entry" :: At i :: path) = Throw TypeError)
    as Hmiss.
  { intros i path. rewrite drill_cons. cbn. rewrite Hentry. cbn.
    by rewrite drill_cons. }
  split; [|split].
  - pose proof (createServiceRequest_of_steps entries w token data Htoken Hdata)
      as H.
    cbv zeta in H. unfold detail_text_at in H. by rewrite Hmiss in H.
  - destruct (Part000_createReport_run patientId serviceRequestId w)
      as (_ & _ & Hc & _).
    split; [|done].
    rewrite (submits_delivered _ _ _ w token data
               (Part000_createReport_submits patientId serviceRequestId)
               Htoken Hdata).
    unfold report_result, location_at. by rewrite Hmiss.
  - destruct (IndexReport_createReport_run patientId serviceRequestId w)
      as (_ & _ & Hc & _).
    split; [|done].
    rewrite (submits_delivered _ _ _ w token data
               (IndexReport_createReport_submits patientId serviceRequestId)
               Htoken Hdata).
    unfold report_result, location_at. by rewrite Hmiss.
Qed.

(** ** Edge cases of the read-back *)

Lemma each_throw {A B} (f : A → outcome B) l e :
  (∀ x e', f x = Throw e' → e' = TypeError) →
  each f l = Throw e → e = TypeError.
Proof.
  intros Hf. induction l as [|x l IH]; cbn; [done|].
  destruct (f x) as [y|e'] eqn:Hx; cbn.
  - destruct (each f l) as [ys|e2]; cbn; [done|].
    intros [= <-]. by apply IH.
  - intros [= <-]. by eapply Hf.
Qed.

Lemma read_entry_throw x e : read_entry x = Throw e → e = TypeError.
Proof.
  unfold read_entry. destruct (member x "reference") eqn:Hx; cbn; [done|].
  intros [= <-]. by eapply member_throw.
Qed.

Lemma readback_entries_throw report e :
  readback_entries report = Throw e → e = TypeError.
Proof.
  unfold readback_entries.
  destruct (member report "result") as [result|e'] eqn:Hm; cbn.
  - destruct result as [| | | | |items|]; cbn; try by intros [= <-].
    destruct (each read_entry items) as [es|e1] eqn:He; cbn; [done|].
    intros [= <-]. eapply each_throw, He. apply read_entry_throw.
  - intros [= <-]. by eapply member_throw.
Qed.

(** X8.  With the report identifier and the token converted to strings and
    the report delivered: when the report has no [result] array, or the
    array holds a [null], [readResults] throws a [TypeError] after printing
    the report and sends no read-back batch. *)
Theorem unreadable_result_stops_the_read_back (reportId : value) (w : World)
    (target token : string) (report : value) :
  ToString reportId = Ret target →
  ToString (accessToken w) = Ret token →
  delivered w (length (sent w)) = Some report →
  (∀ items, member report "result" ≠ Ret (VArr items)) ∨
  (∃ items, member report "result" = Ret (VArr items) ∧
     (VNull ∈ items ∨ VUndefined ∈ items)) →
  (readResults reportId w).1 = Throw TypeError ∧
  requests_of (readResults reportId) w = [report_request token target] ∧
  console (readResults reportId w).2 = console w ++ [LogJson report].
Proof.
  intros Htarget Htoken Hreport%delivered_Ret Hbad.
  destruct (readResults_run reportId w) as (_ & _ & H).
  rewrite Htarget, Htoken, Hreport in H.
  assert (readback_entries report = Throw TypeError) as Hthrow.
  { destruct (readback_entries report) as [entries|e] eqn:Hentries.
    - apply readback_entries_inv in Hentries
        as (items & es & Hresult & Heach & ->).
      destruct Hbad as [Hbad|(items' & Hresult' & Hnull)];
        [by destruct (Hbad items)|].
      rewrite Hresult in Hresult'. injection Hresult' as <-.
      assert (∃ x, x ∈ items ∧ member x "reference" = Throw TypeError)
        as (x & [i Hi]%list_elem_of_lookup & Hx)
        by (destruct Hnull; eauto).
      destruct (each_lookup _ _ _ _ _ Heach Hi) as (y & Hy & _).
      unfold read_entry in Hy. by rewrite Hx in Hy.
    - by rewrite (readback_entries_throw _ _ Hentries). }
  rewrite Hthrow in H. destruct H as (Hout & Hcon & Hsent).
  split_and!; [done| |done]. by apply requests_of_sent.
Qed.

(** X9.  With the report identifier and the token converted to strings, a
    report with an empty [result] still has its batch posted, with no
    entry; [readResults] then returns exactly when that round trip delivers
    a body. *)
Theorem empty_result_is_still_posted (reportId : value) (w : World)
    (target token : string) (report : value) :
  ToString reportId = Ret target →
  ToString (accessToken w) = Ret token →
  delivered w (length (sent w)) = Some report →
  member report "result" = Ret (VArr []) →
  requests_of (readResults reportId) w =
    [report_request token target; batch_request token (bundle_of [])] ∧
  ((readResults reportId w).1 = Ret () ↔
   ∃ results, delivered w (S (length (sent w))) = Some results).
Proof.
  intros Htarget Htoken Hreport%delivered_Ret Hresult.
  destruct (readResults_run reportId w) as (_ & _ & H).
  rewrite Htarget, Htoken, Hreport in H.
  unfold readback_entries in H. rewrite Hresult in H. cbn in H.
  destruct H as [Hsent H]. split; [by apply requests_of_sent|].
  unfold delivered.
  destruct (round_trip w (S (length (sent w)))) as [results|e].
  - destruct H as [-> _]. split; eauto.
  - destruct H as [-> _]. split; [done|]. by intros [? ?].
Qed.

(** ** What the report batch tolerates *)

(** X10.  Sent under a token that converts to a string, [createReport]
    returns whatever the response of the report's entry holds under
    [location], be it [undefined]: status and outcome of that entry and all
    other entries are not looked at. *)
Theorem report_identifier_is_not_checked (patientId serviceRequestId : value)
    (w : World) (token : string) (data : value) (rs : list value)
    (location : value) :
  ToString (accessToken w) = Ret token →
  delivered w (length (sent w)) = Some data →
  entries_of data = Some rs →
  (∀ e response, rs !! 2 = Some e → member e "response" = Ret response →
     member response "location" = Ret location →
     (Part000.createReport patientId serviceRequestId w).1 = Ret [location]) ∧
  (∀ e response, rs !! 4 = Some e → member e "response" = Ret response →
     member response "location" = Ret location →
     (IndexReport.createReport patientId serviceRequestId w).1
       = Ret [location]).
Proof.
  intros Htoken Hdata Hrs.
  assert (∀ i e response, rs !! i = Some e →
            member e "response" = Ret response →
            member response "location" = Ret location →
            location_at data i = Ret location) as Hloc.
  { intros i e response Hi Hresp Hl. unfold location_at, entries_of in *.
    rewrite drill_cons. cbn.
    destruct (member data "entry") as [[| | | | |items|]|]; try done.
    injection Hrs as ->. cbn. rewrite drill_cons. cbn. rewrite Hi. cbn.
    rewrite drill_cons. cbn. rewrite Hresp. cbn. rewrite drill_cons. cbn.
    by rewrite Hl. }
  split; intros e response Hi Hresp Hl.
  - rewrite (submits_delivered _ _ _ w token data
               (Part000_createReport_submits patientId serviceRequestId)
               Htoken Hdata).
    unfold report_result. by rewrite (Hloc _ _ _ Hi Hresp Hl).
  - rewrite (submits_delivered _ _ _ w token data
               (IndexReport_createReport_submits patientId serviceRequestId)
               Htoken Hdata).
    unfold report_result. by rewrite (Hloc _ _ _ Hi Hresp Hl).
Qed.

(** ** Identifiers from one stage to the next *)

Lemma authenticate_keeps_environment w :
  network (authenticate w).2 = network w ∧
  uuid_source (authenticate w).2 = uuid_source w.
Proof.
  unfold authenticate. run.
  destruct (network w (length (sent w))) as [resp|]; cbn; [|done].
  destruct (ok resp); cbn; [|done].
  destruct (json resp) as [data|]; cbn; [|done].
  by destruct (member data "access_token").
Qed.

Lemma createServiceRequest_of_keeps_environment entries w :
  network (createServiceRequest_of entries w).2 = network w ∧
  uuid_source (createServiceRequest_of entries w).2 = uuid_source w.
Proof.
  unfold createServiceRequest_of. run.
  destruct (ToString (accessToken w)) as [token|]; cbn; [|done].
  destruct (network w (length (sent w))) as [resp|]; cbn; [|done].
  destruct (json resp) as [data|]; cbn; [|done].
  repeat match goal with
  | |- context [drill data ?p] => destruct (drill data p); cbn
  end; done.
Qed.

Lemma Part000_createReport_keeps_environment patientId serviceRequestId w :
  network (Part000.createReport patientId serviceRequestId w).2 = network w ∧
  uuid_source (Part000.createReport patientId serviceRequestId w).2
    = uuid_source w.
Proof.
  unfold Part000.createReport. run.
  destruct (ToString (accessToken w)) as [token|]; cbn; [|done].
  destruct (network w (length (sent w))) as [resp|]; cbn; [|done].
  destruct (json resp) as [data|]; cbn; [|done].
  by destruct (drill data _).
Qed.

Lemma delivered_frame w w' n :
  network w' = network w → delivered w' n = delivered w n.
Proof. unfold delivered, round_trip. by intros ->. Qed.

Lemma urn_frame w w' n :
  uuid_source w' = uuid_source w → urn w' n = urn w n.
Proof. unfold urn. by intros ->. Qed.

Lemma readResults_first reportId w r :
  requests_of (readResults reportId) w !! 0 = Some r →
  ∃ target token,
    ToString reportId = Ret target ∧ ToString (accessToken w) = Ret token ∧
    r = report_request token target.
Proof.
  destruct (readResults_run reportId w) as (_ & _ & H).
  destruct (ToString reportId) as [target|].
  2:{ destruct H as (_ & _ & Hs).
      by rewrite (requests_of_sent _ _ []); [|by rewrite app_nil_r]. }
  destruct (ToString (accessToken w)) as [token|].
  2:{ destruct H as (_ & _ & Hs).
      by rewrite (requests_of_sent _ _ []); [|by rewrite app_nil_r]. }
  intros Hr. exists target, token. split_and!; [done..|].
  destruct (round_trip w (length (sent w))) as [report|].
  - destruct (readback_entries report).
    + destruct H as [H _]. rewrite (requests_of_sent _ _ _ H) in Hr.
      by injection Hr as <-.
    + destruct H as (_ & _ & H). rewrite (requests_of_sent _ _ _ H) in Hr.
      by injection Hr as <-.
  - destruct H as (_ & _ & H). rewrite (requests_of_sent _ _ _ H) in Hr.
    by injection Hr as <-.
Qed.

(** X11.  In [Part000.main] the third request, if sent, is the report
    batch built from the locations the second response gave at entries 0
    and 1 and from the third and fourth draw; the fourth request, if sent,
    reads the location the third response gave at entry 2, converted to a
    string.  Both carry the token [authenticate] has stored. *)
Theorem identifiers_flow_through_the_workflow (w : World) :
  let n := length (sent w) in
  let k := uuid_drawn w in
  let stored := accessToken (authenticate w).2 in
  (∀ r, requests_of Part000.main w !! 2 = Some r →
     ∃ token data patientId serviceRequestId,
       ToString stored = Ret token ∧
       delivered w (1 + n) = Some data ∧
       location_at data 0 = Ret patientId ∧
       location_at data 1 = Ret serviceRequestId ∧
       r = batch_request token
             (bundle_of (Part000.report_entries patientId serviceRequestId
                           (urn w (2 + k)) (urn w (3 + k))))) ∧
  (∀ r, requests_of Part000.main w !! 3 = Some r →
     ∃ token data reportId target,
       ToString stored = Ret token ∧
       delivered w (2 + n) = Some data ∧
       location_at data 2 = Ret reportId ∧
       ToString reportId = Ret target ∧
       r = report_request token target).
Proof.
  intros n k stored. subst n k stored. rewrite Part000_main_requests.
  pose proof (authenticate_run w) as (Hs1 & Hu1).
  pose proof (authenticate_keeps_environment w) as (Hn1 & Hq1).
  destruct (authenticate w) as [[[]|e1] w1]; cbn in Hs1, Hu1, Hn1, Hq1 |- *;
    [|done].
  pose proof (createServiceRequest_of_submits Part000.order_entries) as Hsub2.
  pose proof (createServiceRequest_of_run Part000.order_entries w1)
    as (Ht2 & Hu2 & _).
  pose proof (createServiceRequest_of_keeps_environment
                Part000.order_entries w1) as (Hn2 & Hq2).
  pose proof (appends_requests _ w1
                (createServiceRequest_of_appends Part000.order_entries))
    as Hs2.
  pose proof (λ ids w', submits_returns _ _ _ w1 ids w' Hsub2) as Hret2.
  pose proof (submits_requests _ _ _ w1 Hsub2) as Hreq2.
  fold Part000.createServiceRequest in Ht2, Hu2, Hn2, Hq2, Hs2, Hret2, Hreq2.
  destruct (Part000.createServiceRequest w1) as [[ids|e2] w2];
    cbn in Ht2, Hu2, Hn2, Hq2, Hs2.
  2:{ rewrite app_nil_r, Hreq2.
      by destruct (ToString (accessToken w1)). }
  destruct (Hret2 ids w2 eq_refl)
    as (token & data1 & Htoken & _ & Hdata1 & Hres2).
  rewrite Hreq2, Htoken.
  apply order_result_inv in Hres2 as (l0 & l1 & Hl0 & Hl1 & ->).
  pose proof (Part000_createReport_submits (element [l0; l1] 0)
                (element [l0; l1] 1)) as Hsub3.
  pose proof (Part000_createReport_run (element [l0; l1] 0)
                (element [l0; l1] 1) w2) as (Ht3 & Hu3 & _).
  pose proof (Part000_createReport_keeps_environment (element [l0; l1] 0)
                (element [l0; l1] 1) w2) as (Hn3 & Hq3).
  pose proof (λ ids w', submits_returns _ _ _ w2 ids w' Hsub3) as Hret3.
  pose proof (submits_requests _ _ _ w2 Hsub3) as Hreq3.
  rewrite Ht2, Htoken in Hreq3. rewrite Hreq3.
  assert (length (sent w1) = S (length (sent w))) as Hlen1
    by (rewrite Hs1, length_app; cbn; lia).
  assert (length (sent w2) = S (S (length (sent w)))) as Hlen2
    by (rewrite Hs2, Hreq2, Htoken, length_app, Hlen1; cbn; lia).
  split.
  - intros r [= <-]. exists token, data1, l0, l1.
    split_and!; [done| |done|done|].
    + rewrite <- Hlen1, <- (delivered_frame w w1) by done.
      by apply delivered_Ret.
    + cbn. do 2 f_equal. unfold urn. by rewrite Hq2, Hq1, Hu2, Hu1.
  - destruct (Part000.createReport (element [l0; l1] 0)
                (element [l0; l1] 1) w2) as [[ids'|e3] w3];
      cbn in Ht3, Hn3 |- *; [|done].
    destruct (Hret3 ids' w3 eq_refl) as (_ & data2 & _ & _ & Hdata2 & Hres3).
    apply report_result_inv in Hres3 as (l2 & Hl2 & ->).
    intros r (target & token' & Htarget & Htoken' & ->)%readResults_first.
    rewrite Ht3, Ht2, Htoken in Htoken'. injection Htoken' as <-.
    exists token, data2, l2, target. split_and!; [done| |done|done|done].
    rewrite <- Hlen2, <- (delivered_frame w w2) by congruence.
    by apply delivered_Ret.
Qed.

(** ** What authentication prints and stores *)

(** X12.  [authenticate] always prints [Authenticating...] first; it prints
    [Success!] after it exactly when it returns, the body stream exactly
    when it throws its own [Error], and nothing more on any other throw. *)
Theorem authenticate_console (w : World) :
  let said lines :=
    console (authenticate w).2
      = console w ++ Log (VStr "Authenticating...") :: lines in
  match (authenticate w).1 with
  | Ret _ => said [Log (VStr "Success!")]
  | Throw (Error _) => said [LogBodyStream]
  | Throw _ => said []
  end.
Proof.
  unfold authenticate. run.
  destruct (network w (length (sent w))) as [resp|]; cbn; [|done].
  destruct (ok resp); cbn; [|by rewrite <- app_assoc].
  destruct (json resp) as [data|]; cbn; [|done].
  destruct (member data "access_token") as [token|e] eqn:Hm; cbn.
  - by rewrite <- app_assoc.
  - by rewrite (member_throw _ _ _ Hm).
Qed.

(** X13.  A successful token response without [access_token] is accepted:
    [authenticate] returns, the token is [undefined], and the order that
    follows is sent with [Bearer undefined]. *)
Theorem missing_access_token_is_accepted (w : World) (resp : Response)
    (data : value) :
  network w (length (sent w)) = Some resp → ok resp = true →
  json resp = Some data →
  member data "access_token" = Ret VUndefined →
  (authenticate w).1 = Ret () ∧
  accessToken (authenticate w).2 = VUndefined ∧
  ∀ entries r,
    r ∈ requests_of (createServiceRequest_of entries) (authenticate w).2 →
    header r "Authorization" = Some "Bearer undefined".
Proof.
  intros Hnet Hok Hjson Hm.
  assert ((authenticate w).1 = Ret () ∧
          accessToken (authenticate w).2 = VUndefined) as [Hret Htok].
  { unfold authenticate. run. rewrite Hnet. cbn. rewrite Hok. cbn.
    rewrite Hjson. cbn. by rewrite Hm. }
  split_and!; [done..|]. intros entries r Hr.
  destruct (createServiceRequest_of_bears_token entries (authenticate w).2)
    as [_ Hb].
  destruct (Hb r Hr) as (token & Htoken & ->). rewrite Htok in Htoken.
  by injection Htoken as <-.
Qed.

(** ** The order of the requests *)

Lemma sends_in_order_bind {A B} (m : M A) (k : A → M B) ms1 ms2 :
  appends m → (∀ a, appends (k a)) →
  sends_in_order m ms1 → (∀ a, sends_in_order (k a) ms2) →
  sends_in_order (m ≫= k) (ms1 ++ ms2).
Proof.
  intros Ha Hak Hm Hk w. destruct (Hm w) as [Hpre Hall].
  rewrite requests_of_bind by done. unfold mbind, M_bind.
  destruct (m w) as [[a|e] w1]; cbn in *.
  - rewrite fmap_app, (Hall a eq_refl). destruct (Hk a w1) as [Hpre' Hall'].
    split; [by apply prefix_app|]. intros b Hb. by rewrite (Hall' b Hb).
  - rewrite app_nil_r. split; [|done].
    by etrans; [exact Hpre|apply prefix_app_r].
Qed.

Lemma authenticate_sends_in_order : sends_in_order authenticate ["POST"].
Proof.
  intros w. destruct (authenticate_run w) as [Hs _].
  by rewrite (requests_of_sent _ _ _ Hs).
Qed.

Lemma submits_sends_in_order {A} (stage : M A) entries result :
  submits stage entries result → sends_in_order stage ["POST"].
Proof.
  intros Hsub w. rewrite (submits_requests _ _ _ w Hsub).
  rewrite (submits_outcome _ _ _ w Hsub).
  destruct (ToString (accessToken w)); cbn; [done|].
  split; [apply prefix_nil|done].
Qed.

Lemma createServiceRequest_of_sends_in_order entries :
  sends_in_order (createServiceRequest_of entries) ["POST"].
Proof. eapply submits_sends_in_order, createServiceRequest_of_submits. Qed.

Lemma Part000_createReport_sends_in_order patientId serviceRequestId :
  sends_in_order (Part000.createReport patientId serviceRequestId) ["POST"].
Proof. eapply submits_sends_in_order, Part000_createReport_submits. Qed.

Lemma IndexReport_createReport_sends_in_order patientId serviceRequestId :
  sends_in_order (IndexReport.createReport patientId serviceRequestId)
    ["POST"].
Proof. eapply submits_sends_in_order, IndexReport_createReport_submits. Qed.

Lemma readResults_sends_in_order reportId :
  sends_in_order (readResults reportId) ["GET"; "POST"].
Proof.
  intros w. destruct (readResults_run reportId w) as (_ & _ & H).
  destruct (ToString reportId) as [target|].
  2:{ destruct H as (Hout & _ & Hs).
      rewrite (requests_of_sent _ _ []), Hout; [|by rewrite app_nil_r].
      split; [apply prefix_nil|done]. }
  destruct (ToString (accessToken w)) as [token|].
  2:{ destruct H as (Hout & _ & Hs).
      rewrite (requests_of_sent _ _ []), Hout; [|by rewrite app_nil_r].
      split; [apply prefix_nil|done]. }
  destruct (round_trip w (length (sent w))) as [report|].
  - destruct (readback_entries report) as [entries|].
    + destruct H as [Hs _]. by rewrite (requests_of_sent _ _ _ Hs).
    + destruct H as (Hout & _ & Hs). rewrite (requests_of_sent _ _ _ Hs), Hout.
      split; [by exists ["POST"]|done].
  - destruct H as (Hout & _ & Hs). rewrite (requests_of_sent _ _ _ Hs), Hout.
    split; [by exists ["POST"]|done].
Qed.

(** X14.  The methods of the requests of a run are a prefix of
    [POST POST POST GET POST] ([POST POST] in the order-only program), and
    a run that returns has sent them all. *)
Theorem requests_go_out_in_order :
  sends_in_order Part000.main ["POST"; "POST"; "POST"; "GET"; "POST"] ∧
  sends_in_order IndexReport.main ["POST"; "POST"; "POST"; "GET"; "POST"] ∧
  sends_in_order IndexOrder.main ["POST"; "POST"].
Proof.
  split_and!.
  - apply (sends_in_order_bind _ _ ["POST"] ["POST"; "POST"; "GET"; "POST"]);
      [apply authenticate_appends| |apply authenticate_sends_in_order|].
    + intros []. apply appends_bind; [apply createServiceRequest_of_appends|].
      intros ids. apply appends_bind; [apply Part000_createReport_appends|].
      intros ids'. apply readResults_appends.
    + intros [].
      apply (sends_in_order_bind _ _ ["POST"] ["POST"; "GET"; "POST"]);
        [apply createServiceRequest_of_appends|
        |apply createServiceRequest_of_sends_in_order|].
      * intros ids. apply appends_bind; [apply Part000_createReport_appends|].
        intros ids'. apply readResults_appends.
      * intros ids.
        apply (sends_in_order_bind _ _ ["POST"] ["GET"; "POST"]);
          [apply Part000_createReport_appends
          |intros; apply readResults_appends
          |apply Part000_createReport_sends_in_order
          |intros; apply readResults_sends_in_order].
  - apply (sends_in_order_bind _ _ ["POST"] ["POST"; "POST"; "GET"; "POST"]);
      [apply authenticate_appends| |apply authenticate_sends_in_order|].
    + intros []. apply appends_bind; [apply createServiceRequest_of_appends|].
      intros ids. apply appends_bind; [apply IndexReport_createReport_appends|].
      intros ids'. apply readResults_appends.
    + intros [].
      apply (sends_in_order_bind _ _ ["POST"] ["POST"; "GET"; "POST"]);
        [apply createServiceRequest_of_appends|
        |apply createServiceRequest_of_sends_in_order|].
      * intros ids. apply appends_bind; [apply IndexReport_createReport_appends|].
        intros ids'. apply readResults_appends.
      * intros ids.
        apply (sends_in_order_bind _ _ ["POST"] ["GET"; "POST"]);
          [apply IndexReport_createReport_appends
          |intros; apply readResults_appends
          |apply IndexReport_createReport_sends_in_order
          |intros; apply readResults_sends_in_order].
  - apply (sends_in_order_bind _ _ ["POST"] ["POST"]);
      [apply authenticate_appends| |apply authenticate_sends_in_order|].
    + intros []. apply appends_bind; [apply createServiceRequest_of_appends|].
      intros ids. apply appends_ret.
    + intros [].
      apply (sends_in_order_bind _ _ ["POST"] []);
        [apply createServiceRequest_of_appends|intros; apply appends_ret
        |apply createServiceRequest_of_sends_in_order|].
      intros ids w. unfold requests_of. cbn. by rewrite drop_all.
Qed.

(** ** Local identifiers of a run *)

Lemma local_ids_bind {A B} (m : M A) (k : A → M B) w :
  appends m → (∀ a, appends (k a)) →
  local_ids (m ≫= k) w =
    local_ids m w ++ match m w with
                     | (Ret a, w1) => local_ids (k a) w1
                     | (Throw _, _) => []
                     end.
Proof.
  intros Ha Hk. unfold local_ids, batches_of.
  rewrite requests_of_bind by done.
  rewrite omap_app, fmap_app, concat_app.
  by destruct (m w) as [[a|e] w1].
Qed.

Lemma draws_bind {A B} (m : M A) (k : A → M B) d1 d2 o1 o2 :
  appends m → (∀ a, appends (k a)) →
  draws m d1 o1 → (∀ a, draws (k a) d2 o2) →
  draws (m ≫= k) (d2 + d1) (o1 ++ ((λ o, o + d1) <$> o2)).
Proof.
  intros Ha Hak Hm Hk w. destruct (Hm w) as (Hsrc & Hpre & Hall).
  rewrite local_ids_bind by done. unfold mbind, M_bind.
  destruct (m w) as [[a|e] w1]; cbn in *.
  - destruct (Hall a eq_refl) as [Hd Hids].
    destruct (Hk a w1) as (Hsrc' & Hpre' & Hall').
    assert ((λ o, urn w1 (o + uuid_drawn w1)) <$> o2 =
            (λ o, urn w (o + uuid_drawn w)) <$> ((λ o, o + d1) <$> o2)) as Heq.
    { rewrite <- list_fmap_compose. apply list_fmap_ext. intros _ o _. cbn.
      unfold urn. rewrite Hsrc, Hd. f_equal. f_equal. lia. }
    rewrite Heq in Hpre', Hall'. rewrite fmap_app, Hids.
    split_and!; [congruence|by apply prefix_app|].
    intros b Hb. destruct (Hall' b Hb) as [Hd' Hids'].
    rewrite Hd', Hd, Hids'. split; [lia|done].
  - rewrite app_nil_r, fmap_app. split_and!; [done| |done].
    by etrans; [exact Hpre|apply prefix_app_r].
Qed.

Lemma draws_nothing {A} (stage : M A) :
  (∀ w, uuid_source (stage w).2 = uuid_source w ∧
        uuid_drawn (stage w).2 = uuid_drawn w ∧ local_ids stage w = []) →
  draws stage 0 [].
Proof.
  intros H w. destruct (H w) as (Hs & Hd & Hl). rewrite Hl.
  split_and!; [done|done|]. by intros a _.
Qed.

Lemma draws_batch {A} (stage : M A) d offsets entries result :
  submits stage entries result →
  (∀ w, uuid_source (stage w).2 = uuid_source w) →
  (∀ w, uuid_drawn (stage w).2 = d + uuid_drawn w) →
  (∀ w, full_urls (entries w) = (λ o, urn w (o + uuid_drawn w)) <$> offsets) →
  draws stage d offsets.
Proof.
  intros Hsub Hsrc Hd Hurls w. unfold local_ids.
  rewrite (submits_batches _ _ _ w Hsub), (submits_outcome _ _ _ w Hsub).
  destruct (ToString (accessToken w)); cbn.
  - rewrite app_nil_r, Hurls. split_and!; [done|done|]. by intros ? _.
  - split_and!; [done|apply prefix_nil|done].
Qed.

Lemma readResults_keeps_environment reportId w :
  network (readResults reportId w).2 = network w ∧
  uuid_source (readResults reportId w).2 = uuid_source w.
Proof.
  unfold readResults. run.
  destruct (ToString reportId) as [target|]; cbn; [|done].
  destruct (ToString (accessToken w)) as [token|] eqn:Htoken; cbn; [|done].
  destruct (network w (length (sent w))) as [resp|]; cbn; [|done].
  destruct (json resp) as [report|]; cbn; [|done].
  rewrite Htoken. cbn.
  destruct (member report "result") as [result|]; cbn; [|done].
  destruct (Array_map result read_entry) as [entries|]; cbn; [|done].
  destruct (network w _) as [resp2|]; cbn; [|done].
  by destruct (json resp2).
Qed.

Lemma IndexReport_createReport_keeps_environment patientId serviceRequestId w :
  network (IndexReport.createReport patientId serviceRequestId w).2
    = network w ∧
  uuid_source (IndexReport.createReport patientId serviceRequestId w).2
    = uuid_source w.
Proof.
  unfold IndexReport.createReport. run.
  destruct (ToString (accessToken w)) as [token|]; cbn; [|done].
  destruct (network w (length (sent w))) as [resp|]; cbn; [|done].
  destruct (json resp) as [data|]; cbn; [|done].
  by destruct (drill data _).
Qed.

Lemma read_entries_allocate_nothing items : ∀ es,
  each read_entry items = Ret es → full_urls es = [].
Proof.
  induction items as [|x items IH]; cbn; intros es; [by intros [= <-]|].
  destruct (read_entry x) as [y|] eqn:Hy; cbn; [|done].
  destruct (each read_entry items) as [ys|]; cbn; [|done].
  intros [= <-]. unfold read_entry in Hy.
  destruct (member x "reference") as [url|]; cbn in Hy; [|done].
  injection Hy as <-. cbn. by apply IH.
Qed.

Lemma authenticate_draws : draws authenticate 0 [].
Proof.
  apply draws_nothing. intros w.
  destruct (authenticate_run w) as [Hs Hu].
  destruct (authenticate_keeps_environment w) as [_ Hq].
  split_and!; [done..|]. unfold local_ids, batches_of.
  by rewrite (requests_of_sent _ _ _ Hs).
Qed.

Lemma readResults_draws reportId : draws (readResults reportId) 0 [].
Proof.
  apply draws_nothing. intros w.
  destruct (readResults_run reportId w) as (_ & Hu & H).
  destruct (readResults_keeps_environment reportId w) as [_ Hq].
  split_and!; [done..|]. unfold local_ids, batches_of.
  destruct (ToString reportId) as [target|].
  2:{ destruct H as (_ & _ & Hs).
      by rewrite (requests_of_sent _ _ []); [|by rewrite app_nil_r]. }
  destruct (ToString (accessToken w)) as [token|].
  2:{ destruct H as (_ & _ & Hs).
      by rewrite (requests_of_sent _ _ []); [|by rewrite app_nil_r]. }
  destruct (round_trip w (length (sent w))) as [report|].
  - destruct (readback_entries report) as [entries|] eqn:Hentries.
    + destruct H as [Hs _]. rewrite (requests_of_sent _ _ _ Hs).
      apply readback_entries_inv in Hentries
        as (items & es & _ & Heach & ->).
      cbn. by rewrite (read_entries_allocate_nothing _ _ Heach).
    + destruct H as (_ & _ & Hs). by rewrite (requests_of_sent _ _ _ Hs).
  - destruct H as (_ & _ & Hs). by rewrite (requests_of_sent _ _ _ Hs).
Qed.

Lemma createServiceRequest_of_draws entries :
  (∀ patientUrn exampleMrn,
     full_urls (entries patientUrn exampleMrn) = [patientUrn]) →
  draws (createServiceRequest_of entries) 2 [0].
Proof.
  intros Hurls.
  eapply draws_batch; [apply createServiceRequest_of_submits|..]; intros w.
  - by destruct (createServiceRequest_of_keeps_environment entries w).
  - by destruct (createServiceRequest_of_run entries w) as (_ & Hu & _).
  - cbn beta. by rewrite Hurls.
Qed.

Lemma Part000_createReport_draws patientId serviceRequestId :
  draws (Part000.createReport patientId serviceRequestId) 2 [0; 1].
Proof.
  eapply draws_batch; [apply Part000_createReport_submits|..]; intros w.
  - by destruct (Part000_createReport_keeps_environment
                   patientId serviceRequestId w).
  - by destruct (Part000_createReport_run patientId serviceRequestId w)
      as (_ & Hu & _).
  - done.
Qed.

Lemma IndexReport_createReport_draws patientId serviceRequestId :
  draws (IndexReport.createReport patientId serviceRequestId) 4 [0; 1; 2; 3].
Proof.
  eapply draws_batch; [apply IndexReport_createReport_submits|..]; intros w.
  - by destruct (IndexReport_createReport_keeps_environment
                   patientId serviceRequestId w).
  - by destruct (IndexReport_createReport_run patientId serviceRequestId w)
      as (_ & Hu & _).
  - done.
Qed.

Lemma main_draws :
  draws Part000.main 4 [0; 2; 3] ∧
  draws IndexReport.main 6 [0; 2; 3; 4; 5] ∧
  draws IndexOrder.main 2 [0].
Proof.
  split_and!.
  - apply (draws_bind _ _ 0 4 [] [0; 2; 3]);
      [apply authenticate_appends| |apply authenticate_draws|].
    + intros []. apply appends_bind; [apply createServiceRequest_of_appends|].
      intros ids. apply appends_bind; [apply Part000_createReport_appends|].
      intros ids'. apply readResults_appends.
    + intros []. apply (draws_bind _ _ 2 2 [0] [0; 1]);
        [apply createServiceRequest_of_appends|
        |by apply createServiceRequest_of_draws|].
      * intros ids. apply appends_bind; [apply Part000_createReport_appends|].
        intros ids'. apply readResults_appends.
      * intros ids. apply (draws_bind _ _ 2 0 [0; 1] []);
          [apply Part000_createReport_appends
          |intros; apply readResults_appends
          |apply Part000_createReport_draws
          |intros; apply readResults_draws].
  - apply (draws_bind _ _ 0 6 [] [0; 2; 3; 4; 5]);
      [apply authenticate_appends| |apply authenticate_draws|].
    + intros []. apply appends_bind; [apply createServiceRequest_of_appends|].
      intros ids. apply appends_bind; [apply IndexReport_createReport_appends|].
      intros ids'. apply readResults_appends.
    + intros []. apply (draws_bind _ _ 2 4 [0] [0; 1; 2; 3]);
        [apply createServiceRequest_of_appends|
        |by apply createServiceRequest_of_draws|].
      * intros ids. apply appends_bind; [apply IndexReport_createReport_appends|].
        intros ids'. apply readResults_appends.
      * intros ids. apply (draws_bind _ _ 4 0 [0; 1; 2; 3] []);
          [apply IndexReport_createReport_appends
          |intros; apply readResults_appends
          |apply IndexReport_createReport_draws
          |intros; apply readResults_draws].
  - apply (draws_bind _ _ 0 2 [] [0]);
      [apply authenticate_appends| |apply authenticate_draws|].
    + intros []. apply appends_bind; [apply createServiceRequest_of_appends|].
      intros ids. apply appends_ret.
    + intros []. apply (draws_bind _ _ 2 0 [0] []);
        [apply createServiceRequest_of_appends|intros; apply appends_ret
        |by apply createServiceRequest_of_draws|].
      intros ids. apply draws_nothing. intros w. split_and!; [done..|].
      unfold local_ids, batches_of, requests_of. cbn. by rewrite drop_all.
Qed.

Lemma draws_NoDup {A} (stage : M A) d offsets w :
  draws stage d offsets → NoDup offsets →
  Inj (=) (=) (uuid_source w) → NoDup (local_ids stage w).
Proof.
  intros Hdraws Hoff Hinj. destruct (Hdraws w) as (_ & [rest Hpre] & _).
  assert (NoDup ((λ o, urn w (o + uuid_drawn w)) <$> offsets)) as Hall.
  { apply NoDup_fmap_2; [|done]. intros a b Hab. unfold urn in Hab.
    apply (inj (String.app "urn:uuid:")), Hinj in Hab. lia. }
  rewrite Hpre in Hall. by apply NoDup_app in Hall as [? _].
Qed.

(** X15.  If [randomUUID] never repeats, no local identifier is allocated
    twice in a run of any of the three programs, and in [Part000.main] the
    draw used for the record number is never used as a local identifier. *)
Theorem local_identifiers_are_fresh (w : World) :
  Inj (=) (=) (uuid_source w) →
  NoDup (local_ids Part000.main w) ∧
  NoDup (local_ids IndexReport.main w) ∧
  NoDup (local_ids IndexOrder.main w) ∧
  urn w (1 + uuid_drawn w) ∉ local_ids Part000.main w.
Proof.
  intros Hinj. destruct main_draws as (H1 & H2 & H3).
  split_and!.
  - eapply draws_NoDup; [exact H1| |done]. by apply NoDup_ListNoDup; repeat constructor; cbn; intuition lia.
  - eapply draws_NoDup; [exact H2| |done]. by apply NoDup_ListNoDup; repeat constructor; cbn; intuition lia.
  - eapply draws_NoDup; [exact H3| |done]. by apply NoDup_ListNoDup; repeat constructor; cbn; intuition lia.
  - destruct (H1 w) as (_ & [rest Hpre] & _). intros Hin.
    assert (urn w (1 + uuid_drawn w)
              ∈ (λ o, urn w (o + uuid_drawn w)) <$> [0; 2; 3]) as Hmem
      by (rewrite Hpre; apply elem_of_app; by left).
    apply list_elem_of_fmap in Hmem as (o & Ho & Hoff). unfold urn in Ho.
    apply (inj (String.app "urn:uuid:")), Hinj in Ho.
    rewrite !elem_of_cons in Hoff.
    destruct Hoff as [->|[->|[->|[]%elem_of_nil]]]; lia.
Qed.

(** X15 on the sample server, whose identifiers are numbered. *)
Lemma local_identifiers_are_fresh_witness :
  NoDup (local_ids Part000.main sample_world).
Proof.
  assert (Inj (=) (=) (uuid_source sample_world)) as Hinj.
  { intros a b Hab. cbn in Hab. unfold sample_uuids in Hab.
    by apply (inj (String.app _)), (inj pretty) in Hab. }
  exact (proj1 (local_identifiers_are_fresh sample_world Hinj)).
Defined.

(** ** A token that does not convert to a string *)

Lemma submits_stops_before_sending {A} (stage : M A) entries result :
  submits stage entries result → stops_before_sending stage.
Proof.
  intros Hsub w e He. destruct (Hsub w) as [_ H].
  rewrite (submits_requests _ _ _ w Hsub). rewrite He in H |- *.
  destruct H as (Hout & _ & Hconsole).
  by rewrite Hout, (ToString_throw _ _ He).
Qed.

(** X16.  A token that does not convert to a string, such as a parsed
    object with a [toString] key of its own, stops every function that
    needs it: the function throws a [TypeError] and has sent and printed
    nothing.  [readResults] stops in the same way on a report identifier
    that does not convert. *)
Theorem unconvertible_token_stops_before_the_request
    (patientId serviceRequestId reportId : value) :
  stops_before_sending Part000.createServiceRequest ∧
  stops_before_sending (Part000.createReport patientId serviceRequestId) ∧
  stops_before_sending IndexOrder.createServiceRequest ∧
  stops_before_sending IndexReport.createServiceRequest ∧
  stops_before_sending (IndexReport.createReport patientId serviceRequestId) ∧
  stops_before_sending (readResults reportId) ∧
  (∀ w e, ToString reportId = Throw e →
     (readResults reportId w).1 = Throw TypeError ∧
     requests_of (readResults reportId) w = [] ∧
     console (readResults reportId w).2 = console w).
Proof.
  split_and!.
  - eapply submits_stops_before_sending, createServiceRequest_of_submits.
  - eapply submits_stops_before_sending, Part000_createReport_submits.
  - eapply submits_stops_before_sending, createServiceRequest_of_submits.
  - eapply submits_stops_before_sending, createServiceRequest_of_submits.
  - eapply submits_stops_before_sending, IndexReport_createReport_submits.
  - intros w e He. destruct (readResults_run reportId w) as (_ & _ & H).
    rewrite He in H.
    destruct (ToString reportId) as [target|e'] eqn:Htarget;
      destruct H as (Hout & Hconsole & Hsent);
      (split_and!; [|apply requests_of_sent; by rewrite app_nil_r|done]).
    + by rewrite Hout, (ToString_throw _ _ He).
    + by rewrite Hout, (ToString_throw _ _ Htarget).
  - intros w e He. destruct (readResults_run reportId w) as (_ & _ & H).
    rewrite He in H. destruct H as (Hout & Hconsole & Hsent).
    split_and!; [|apply requests_of_sent; by rewrite app_nil_r|done].
    by rewrite Hout, (ToString_throw _ _ He).
Qed.

(** X16 on the endpoint whose token is an object with a [toString] key:
    the order throws and nothing follows the token request. *)
Lemma unconvertible_token_stops_before_the_request_witness :
  (Part000.createServiceRequest (authenticate unprintable_world).2).1
    = Throw TypeError ∧
  requests_of Part000.createServiceRequest (authenticate unprintable_world).2
    = [] ∧
  console (Part000.createServiceRequest (authenticate unprintable_world).2).2
    = console (authenticate unprintable_world).2.
Proof.
  destruct (unconvertible_token_stops_before_the_request
              VUndefined VUndefined VUndefined) as (Horder & _).
  apply (Horder (authenticate unprintable_world).2 TypeError).
  vm_compute. reflexivity.
Defined.

(** ** The further properties on the sample servers *)

(** X4 on the sample server: every later request says [Bearer secret]. *)
Lemma requests_carry_the_token_witness :
  ∃ later, requests_of Part000.main sample_world = token_request :: later ∧
    ∀ r, r ∈ later → header r "Authorization" = Some "Bearer secret".
Proof.
  assert (authenticate sample_world = (Ret (), (authenticate sample_world).2))
    as Hauth.
  { assert ((authenticate sample_world).1 = Ret ()) as <-
      by (vm_compute; reflexivity).
    apply surjective_pairing. }
  destruct (requests_carry_the_token _ _ Hauth)
    as (_ & (later & Hreq & Hlater) & _).
  exists later. split; [exact Hreq|]. intros r Hr.
  destruct (Hlater r Hr) as (token & Htoken & Hheader).
  vm_compute in Htoken. injection Htoken as <-. exact Hheader.
Defined.

(** X5 on the sample server. *)
Lemma order_prints_what_it_returns_witness :
  console (Part000.createServiceRequest (sample_world_after 1)).2 =
    [LogJson (VObj [("resourceType", VStr "Bundle");
                    ("type", VStr "batch-response");
                    ("entry", VArr [created "Patient/X";
                                    created "ServiceRequest/Y"])]);
     Log (VStr "Created"); Log (VStr "Patient/X");
     Log (VStr "Created"); Log (VStr "ServiceRequest/Y")].
Proof.
  destruct (order_prints_what_it_returns Part000.order_entries
              (sample_world_after 1) [VStr "Patient/X"; VStr "ServiceRequest/Y"])
    as (data & t0 & t1 & l0 & l1 & Hdata & Ht0 & Hl0 & Ht1 & Hl1 & _ & Hsaid).
  { vm_compute. reflexivity. }
  vm_compute in Hdata. injection Hdata as <-.
  vm_compute in Ht0. injection Ht0 as <-.
  vm_compute in Hl0. injection Hl0 as <-.
  vm_compute in Ht1. injection Ht1 as <-.
  vm_compute in Hl1. injection Hl1 as <-.
  exact Hsaid.
Defined.

(** X6 on the server that answers with one entry. *)
Lemma order_prints_first_entry_before_failing_witness :
  (Part000.createServiceRequest short_world).1 = Throw TypeError ∧
  console (Part000.createServiceRequest short_world).2 =
    [LogJson (VObj [("resourceType", VStr "Bundle");
                    ("type", VStr "batch-response");
                    ("entry", VArr [created "Patient/X"])]);
     Log (VStr "Created"); Log (VStr "Patient/X")].
Proof.
  exact (order_prints_first_entry_before_failing Part000.order_entries
           short_world "null" _ (created "Patient/X") (VStr "Created")
           (VStr "Patient/X") eq_refl eq_refl eq_refl eq_refl eq_refl).
Defined.

(** X7 on the server that answers with an outcome. *)
Lemma missing_entry_is_a_type_error_witness :
  (Part000.createServiceRequest error_world).1 = Throw TypeError ∧
  console (Part000.createServiceRequest error_world).2
    = [LogJson operation_outcome].
Proof.
  exact (proj1 (missing_entry_is_a_type_error VUndefined VUndefined
                  Part000.order_entries error_world "null" operation_outcome
                  eq_refl eq_refl eq_refl)).
Defined.

(** X8 on the server that answers with an outcome. *)
Lemma unreadable_result_stops_the_read_back_witness :
  (readResults VUndefined error_world).1 = Throw TypeError ∧
  requests_of (readResults VUndefined) error_world
    = [report_request "null" "undefined"] ∧
  console (readResults VUndefined error_world).2 = [LogJson operation_outcome].
Proof.
  apply (unreadable_result_stops_the_read_back VUndefined error_world
           "undefined" "null" operation_outcome eq_refl eq_refl eq_refl).
  left. intros items. discriminate.
Defined.

(** X9 on the report without results. *)
Lemma empty_result_is_still_posted_witness :
  requests_of (readResults (VStr "DiagnosticReport/Z")) empty_report_world =
    [report_request "null" "DiagnosticReport/Z";
     batch_request "null" (bundle_of [])].
Proof.
  exact (proj1 (empty_result_is_still_posted (VStr "DiagnosticReport/Z")
                  empty_report_world "DiagnosticReport/Z" "null" _
                  eq_refl eq_refl eq_refl eq_refl)).
Defined.

(** X10 on a batch answer whose third entry was rejected. *)
Lemma report_identifier_is_not_checked_witness :
  (Part000.createReport (VStr "Patient/X") (VStr "ServiceRequest/Y")
     rejected_report_world).1 = Ret [VUndefined].
Proof.
  destruct (report_identifier_is_not_checked (VStr "Patient/X")
              (VStr "ServiceRequest/Y") rejected_report_world "null" _
              [created "Observation/A"; created "Observation/B"; rejected]
              VUndefined eq_refl eq_refl eq_refl) as [Hreport _].
  exact (Hreport rejected _ eq_refl eq_refl eq_refl).
Defined.

(** X11 on the sample server: the fourth request reads
    [DiagnosticReport/Z]. *)
Lemma identifiers_flow_through_the_workflow_witness :
  ∃ data,
    delivered sample_world 2 = Some data ∧
    location_at data 2 = Ret (VStr "DiagnosticReport/Z") ∧
    requests_of Part000.main sample_world !! 3
      = Some (report_request "secret" "DiagnosticReport/Z").
Proof.
  destruct (identifiers_flow_through_the_workflow sample_world) as [_ Hread].
  assert (requests_of Part000.main sample_world !! 3
            = Some (report_request "secret" "DiagnosticReport/Z"))
    as Hsent by (vm_compute; reflexivity).
  destruct (Hread _ Hsent)
    as (token & data & reportId & target & _ & Hdata & Hloc & _).
  exists data. split; [exact Hdata|]. split; [|exact Hsent].
  vm_compute in Hdata. injection Hdata as <-. vm_compute. reflexivity.
Defined.

(** X13 on the endpoint that answers without a token. *)
Lemma missing_access_token_is_accepted_witness :
  (authenticate tokenless_world).1 = Ret () ∧
  accessToken (authenticate tokenless_world).2 = VUndefined.
Proof.
  destruct (missing_access_token_is_accepted tokenless_world _ _
              eq_refl eq_refl eq_refl eq_refl) as (Hret & Htoken & _).
  exact (conj Hret Htoken).
Defined.
